(** * Gender pay gap audit script: a shallow embedding of [code.py]

    The script is a straight-line pandas / statsmodels program.  The
    embedding follows its four parts in source order:

    - data cleaning (lines 33-58), as a row-wise function on the records
      that [pd.read_csv] delivers;
    - grouped summary statistics (lines 70-112), with [groupby] building
      one bucket per key and [agg] reducing each bucket;
    - the regression formulas (lines 125-205), kept as the strings of the
      source and read with the fragment of the formula language they use;
    - the top-level statement sequence (lines 25-220), with the effect of
      each statement and an exception semantics.

    Numbers: a numeric CSV field is a finite number or empty (no
    field reads [inf]).  pandas stores an empty field as NaN; finite
    values are taken as exact rationals (the pay data are integers),
    rounding and overflow are not modelled. *)

From Stdlib Require Import QArith Lqa Ascii.
From Stdlib Require OrderedTypeEx.
From stdpp Require Import gmap strings list fin_maps sorting.

Local Open Scope string_scope.
Local Open Scope list_scope.

(* ================================================================= *)
(** ** Cells *)

(** A numeric cell of the frame: [None] is NaN (a missing field). *)
Definition cell : Type := option Q.

(** A text cell: [None] is a missing field (NaN in an object column). *)
Definition text : Type := option string.

(** A value produced by [np.log].  The finite logarithm of a positive
    number [q] is kept symbolic as [Ln q]. *)
Inductive logval : Type :=
  | LNaN
  | LNegInf
  | Ln (q : Q).


Definition Qltb (a b : Q) : bool := negb (Qle_bool b a).

(** Comparison of a column with a scalar; any comparison with NaN is
    [False]. *)
Definition lt (c : cell) (q : Q) : bool :=
  match c with Some x => Qltb x q | None => false end.

Definition ge (c : cell) (q : Q) : bool :=
  match c with Some x => Qle_bool q x | None => false end.


(** [+] on float columns and on a column and a scalar: NaN propagates. *)
Definition np_add (a b : cell) : cell :=
  match a, b with
  | Some x, Some y => Some (x + y)%Q
  | _, _ => None
  end.

Definition np_add_scalar (a : cell) (k : Q) : cell := np_add a (Some k).

(** [np.log]: the logarithm of a positive number, [-inf] at zero, NaN
    below zero and at NaN. *)
Definition np_log (a : cell) : logval :=
  match a with
  | None => LNaN
  | Some x =>
      if Qltb 0 x then Ln x
      else if Qeq_bool x 0 then LNegInf
      else LNaN
  end.

(* ================================================================= *)
(** ** The frame *)

(** A row as [pd.read_csv] delivers it: the nine columns of the data
    set. *)
Record raw_row : Type := RawRow {
  raw_jobTitle : text;
  raw_gender : text;
  raw_age : cell;
  raw_perfEval : cell;
  raw_edu : text;
  raw_dept : text;
  raw_seniority : cell;
  raw_basePay : cell;
  raw_bonus : cell
}.

(** A row after the cleaning block: the nine columns and the six the
    script adds. *)
Record row : Type := Row {
  jobTitle : text;
  gender : text;
  age : cell;
  perfEval : cell;
  edu : text;
  dept : text;
  seniority : cell;
  basePay : cell;
  bonus : cell;
  age_bin : Z;
  totalPay : cell;
  log_base : logval;
  log_total : logval;
  log_bonus : logval;
  male : Z
}.

(** [data.loc[mask, col] = v] on one row: the cell takes [v] where the
    mask holds and keeps its value elsewhere. *)
Definition loc_assign {A : Type} (mask : bool) (v old : A) : A :=
  if mask then v else old.

(** Lines 33-38: the age bins, one masked assignment after the other. *)
Definition bin_age (a : cell) : Z :=
  let age_bin := 0%Z in
  let age_bin := loc_assign (lt a 25) 1%Z age_bin in
  let age_bin := loc_assign (ge a 25 && lt a 35) 2%Z age_bin in
  let age_bin := loc_assign (ge a 35 && lt a 45) 3%Z age_bin in
  let age_bin := loc_assign (ge a 45 && lt a 55) 4%Z age_bin in
  let age_bin := loc_assign (ge a 55) 5%Z age_bin in
  age_bin.

(** Line 49: [(data['gender'] == 'Male').astype(int)]. *)
Definition male_dummy (g : text) : Z :=
  if bool_decide (g = Some "Male") then 1%Z else 0%Z.

(** Lines 33-58 on one row.  Every operation of the block is
    element-wise, so the block acts on each row by itself.  The casts
    to [category] (lines 55-58) keep the values. *)
Definition clean_row (r : raw_row) : row :=
  let age_bin := bin_age (raw_age r) in
  let totalPay := np_add (raw_basePay r) (raw_bonus r) in
  let log_base := np_log (raw_basePay r) in
  let log_total := np_log totalPay in
  let log_bonus := np_log (np_add_scalar (raw_bonus r) 1) in
  let male := male_dummy (raw_gender r) in
  {| jobTitle := raw_jobTitle r;
     gender := raw_gender r;
     age := raw_age r;
     perfEval := raw_perfEval r;
     edu := raw_edu r;
     dept := raw_dept r;
     seniority := raw_seniority r;
     basePay := raw_basePay r;
     bonus := raw_bonus r;
     age_bin := age_bin;
     totalPay := totalPay;
     log_base := log_base;
     log_total := log_total;
     log_bonus := log_bonus;
     male := male |}.

Definition clean (data : list raw_row) : list row := map clean_row data.

(** The five cutoff conditions of the comments on lines 34-38. *)
Definition cutoffs (a : cell) : list bool :=
  [ lt a 25; ge a 25 && lt a 35; ge a 35 && lt a 45;
    ge a 45 && lt a 55; ge a 55 ].

(** Number of conditions that hold. *)
Definition holding (bs : list bool) : nat := length (filter (fun b => b = true) bs).

(* ================================================================= *)
(** ** Summary statistics (lines 70-112) *)

(** [groupby]: rows are put, in frame order, into the bucket of their
    key; a row whose key is missing belongs to no bucket (pandas'
    default [dropna=True]). *)
Definition bucket_add `{Countable K} (m : gmap K (list row)) (k : K) (r : row)
  : gmap K (list row) :=
  <[k := default [] (m !! k) ++ [r]]> m.

Definition groupby `{Countable K} (key : row -> option K) (data : list row)
  : gmap K (list row) :=
  foldl (fun m r => match key r with
                    | Some k => bucket_add m k r
                    | None => m
                    end) ∅ data.

(** The key of [groupby(['a', 'b'])]. *)
Definition key2 (a b : row -> text) (r : row) : option (string * string) :=
  match a r, b r with
  | Some x, Some y => Some (x, y)
  | _, _ => None
  end.

(** The categories of a text column cast to [category]: the values
    present in the column. *)
Definition categories (c : row -> text) (data : list row) : list string :=
  remove_dups (omap c data).

(** Grouping by two categorical columns.  With [observed=False] every
    pair of categories is a group, the pairs no row has with an empty
    bucket; with [observed=True] only the pairs some row has.  Which of
    the two the call on lines 101 and 108 means depends on the pandas
    release, so the flag is a parameter. *)
Definition groupby2 (observed : bool) (a b : row -> text) (data : list row)
  : gmap (string * string) (list row) :=
  let buckets := groupby (key2 a b) data in
  if observed then buckets
  else buckets ∪ list_to_map
         ((fun k => (k, [])) <$> cprod (categories a data) (categories b data)).

(** The values of a column that are present: [mean], [median] and
    [count] all skip missing values. *)
Definition dropna {A : Type} (c : row -> option A) (g : list row) : list A :=
  omap c g.

Definition Qsum (l : list Q) : Q := foldr Qplus 0%Q l.

(** Arithmetic mean of a list of numbers; NaN for the empty list. *)
Definition arith_mean (l : list Q) : cell :=
  match l with
  | [] => None
  | _ => Some (Qsum l / inject_Z (Z.of_nat (length l)))%Q
  end.

Definition Qleb_rel (a b : Q) : Prop := Qle_bool a b = true.

Global Instance Qleb_rel_dec (a b : Q) : Decision (Qleb_rel a b).
Proof. unfold Qleb_rel; apply _. Defined.

(** Median of a list of numbers: the middle value of the sorted list,
    or the mean of the two middle values; NaN for the empty list. *)
Definition median_of (l : list Q) : cell :=
  let s := merge_sort Qleb_rel l in
  let n := length s in
  if (n =? 0)%nat then None
  else if Nat.odd n then s !! (n / 2)%nat
  else match s !! (n / 2 - 1)%nat, s !! (n / 2)%nat with
       | Some x, Some y => Some ((x + y) / 2)%Q
       | _, _ => None
       end.

(** The three aggregation functions the script names. *)
Definition mean (c : row -> cell) (g : list row) : cell :=
  arith_mean (dropna c g).

Definition median (c : row -> cell) (g : list row) : cell :=
  median_of (dropna c g).

Definition count {A : Type} (c : row -> option A) (g : list row) : Z :=
  Z.of_nat (length (dropna c g)).

(** A row of [summary_base], [summary_total] and [summary_bonus]
    (columns [mean..], [med..], [cnt]) and a row of [summary_perf],
    [summary_dept] and [summary_job] (columns [mean..], [cnt]). *)
Record stats3 : Type := Stats3 { s3_mean : cell; s3_med : cell; s3_cnt : Z }.
Record stats2 : Type := Stats2 { s2_mean : cell; s2_cnt : Z }.

(** Lines 70-74. *)
Definition summary_base (data : list row) : gmap string stats3 :=
  (fun g => {| s3_mean := mean basePay g;
               s3_med := median basePay g;
               s3_cnt := count basePay g |}) <$> groupby gender data.

(** Lines 78-82. *)
Definition summary_total (data : list row) : gmap string stats3 :=
  (fun g => {| s3_mean := mean totalPay g;
               s3_med := median totalPay g;
               s3_cnt := count totalPay g |}) <$> groupby gender data.

(** Lines 86-90. *)
Definition summary_bonus (data : list row) : gmap string stats3 :=
  (fun g => {| s3_mean := mean bonus g;
               s3_med := median bonus g;
               s3_cnt := count bonus g |}) <$> groupby gender data.

(** Lines 94-97. *)
Definition summary_perf (data : list row) : gmap string stats2 :=
  (fun g => {| s2_mean := mean perfEval g;
               s2_cnt := count perfEval g |}) <$> groupby gender data.

(** Order of [sort_values(by=[a, b], ascending=[False, True])] on the
    two key columns: the first key descending, then the second
    ascending.  Categories are ordered as their strings. *)
Definition sort_order {A : Type} (x y : (string * string) * A) : Prop :=
  let '((a1, b1), _) := x in
  let '((a2, b2), _) := y in
  String.ltb a2 a1 = true \/ (a1 = a2 /\ String.leb b1 b2 = true).

Global Instance sort_order_dec {A : Type} (x y : (string * string) * A)
  : Decision (sort_order x y).
Proof. destruct x as [[a1 b1] ?], y as [[a2 b2] ?]; simpl; apply _. Defined.

(** [reset_index().sort_values(...)]: the groups as a list of rows,
    sorted. *)
Definition sort_values {A : Type} (t : gmap (string * string) A)
  : list ((string * string) * A) :=
  merge_sort sort_order (map_to_list t).

(** Lines 101-104. *)
Definition summary_dept (observed : bool) (data : list row)
  : list ((string * string) * stats2) :=
  sort_values
    ((fun g => {| s2_mean := mean totalPay g; s2_cnt := count dept g |})
       <$> groupby2 observed dept gender data).

(** Lines 108-111. *)
Definition summary_job (observed : bool) (data : list row)
  : list ((string * string) * stats2) :=
  sort_values
    ((fun g => {| s2_mean := mean totalPay g; s2_cnt := count jobTitle g |})
       <$> groupby2 observed jobTitle gender data).

(** The rows of a group, said directly: the rows of the frame whose key
    is [k]. *)
Definition group_rows `{EqDecision K} (key : row -> option K) (k : K)
    (data : list row) : list row :=
  filter (fun r => key r = Some k) data.

(** The rows of a list in which a column is present. *)
Definition present {A : Type} (c : row -> option A) (rows : list row) : list row :=
  filter (fun r => is_Some (c r)) rows.

(** The rows of the frame in a department (or job title) and of a
    gender. *)
Definition pair_rows (a b : row -> text) (x y : string) (data : list row)
  : list row :=
  filter (fun r => a r = Some x /\ b r = Some y) data.

(* ================================================================= *)
(** ** Regression formulas (lines 125-205) *)

(** The fragment of the formula language the script uses:
    [outcome ~ t + ... + t], each [t] a factor or a product [a*b] of two
    factors, a factor a column name or [C(name)] (the column treated as
    categorical).  [a*b] stands for [a + b + a:b].  The intercept
    that every formula has without naming it is not listed. *)
Inductive factor : Type :=
  | Var (name : string)
  | C (name : string).

Global Instance factor_eq_dec : EqDecision factor.
Proof. solve_decision. Defined.

(** A term is the interaction of its factors. *)
Definition term : Type := list factor.

Record formula : Type := Formula { lhs : string; rhs : list term }.

Definition factor_name (f : factor) : string :=
  match f with Var n => n | C n => n end.

(** Pieces of [s] between occurrences of [sep]; [acc] holds the piece
    being read, reversed. *)
Fixpoint split_on_aux (sep : ascii) (s acc : string) : list string :=
  match s with
  | EmptyString => [String.rev acc]
  | String c s' =>
      if Ascii.eqb c sep then String.rev acc :: split_on_aux sep s' EmptyString
      else split_on_aux sep s' (String c acc)
  end.

Definition split_on (sep : ascii) (s : string) : list string :=
  split_on_aux sep s EmptyString.

Fixpoint remove_spaces (s : string) : string :=
  match s with
  | EmptyString => EmptyString
  | String c s' =>
      if Ascii.eqb c " "%char then remove_spaces s'
      else String c (remove_spaces s')
  end.

Definition is_name_char (c : ascii) : bool :=
  let n := nat_of_ascii c in
  ((97 <=? n) && (n <=? 122) || (65 <=? n) && (n <=? 90)
   || (48 <=? n) && (n <=? 57) || (n =? 95))%nat.

Fixpoint all_chars (p : ascii -> bool) (s : string) : bool :=
  match s with
  | EmptyString => true
  | String c s' => p c && all_chars p s'
  end.

Definition is_name (s : string) : bool :=
  negb (String.eqb s "") && all_chars is_name_char s.

Definition parse_factor (s : string) : option factor :=
  if is_name s then Some (Var s)
  else
    let n := String.length s in
    if String.prefix "C(" s && (3 <? n)%nat
       && String.eqb (String.substring (n - 1) 1 s) ")"
       && is_name (String.substring 2 (n - 3) s)
    then Some (C (String.substring 2 (n - 3) s))
    else None.

(** The terms of one summand. *)
Definition parse_summand (s : string) : option (list term) :=
  match split_on "*"%char s with
  | [a] => fa ← parse_factor a; Some [[fa]]
  | [a; b] =>
      fa ← parse_factor a; fb ← parse_factor b;
      Some [[fa]; [fb]; [fa; fb]]
  | _ => None
  end.

Definition parse_formula (s : string) : option formula :=
  match split_on "~"%char (remove_spaces s) with
  | [l; r] =>
      if is_name l then
        ts ← mapM parse_summand (split_on "+"%char r);
        Some {| lhs := l; rhs := remove_dups (concat ts) |}
      else None
  | _ => None
  end.

(** The regressors of a formula: the columns its right-hand side
    names. *)
Definition regressors (f : formula) : list string :=
  remove_dups (factor_name <$> concat (rhs f)).

(** Every column a formula names, the outcome first. *)
Definition formula_columns (f : formula) : list string :=
  lhs f :: regressors f.

(** The estimators of [statsmodels.formula.api]. *)
Inductive estimator : Type :=
  | ols | wls | gls | glm | rlm | logit | probit | poisson | quantreg.

(** A call [smf.<estimator>(formula, data=data).fit()]. *)
Record fit_call : Type := FitCall {
  fit_estimator : estimator;
  fit_formula : string
}.

(** Line 125. *)
Definition model1 : fit_call :=
  {| fit_estimator := ols; fit_formula := "log_base ~ male" |}.

(** Line 129. *)
Definition model2 : fit_call :=
  {| fit_estimator := ols;
     fit_formula := "log_base ~ male + perfEval + C(age_bin) + C(edu)" |}.

(** Line 133. *)
Definition model3 : fit_call :=
  {| fit_estimator := ols;
     fit_formula := "log_base ~ male + perfEval + C(age_bin) + C(edu) + C(dept) + seniority + C(jobTitle)" |}.

(** Lines 177-178. *)
Definition dept_formula : string :=
  "log_base ~ male*C(dept) + perfEval + C(age_bin) + C(edu) + seniority + C(jobTitle)".

Definition dept_results : fit_call :=
  {| fit_estimator := ols; fit_formula := dept_formula |}.

(** Lines 204-205. *)
Definition job_formula : string :=
  "log_base ~ male*C(jobTitle) + perfEval + C(age_bin) + C(edu) + seniority + C(dept)".

Definition job_results : fit_call :=
  {| fit_estimator := ols; fit_formula := job_formula |}.

(** The parsed formula of a call; a formula outside the fragment has
    no terms and no outcome. *)
Definition formula_of (c : fit_call) : formula :=
  default {| lhs := ""; rhs := [] |} (parse_formula (fit_formula c)).

(** A cell of the cleaned frame, whatever its column. *)
Inductive value : Type :=
  | VNum (c : cell)
  | VInt (z : Z)
  | VLog (l : logval)
  | VText (t : text).

(** The columns of the cleaned frame, by name. *)
Definition columns (r : row) : list (string * value) :=
  [ ("jobTitle", VText (jobTitle r)); ("gender", VText (gender r));
    ("age", VNum (age r)); ("perfEval", VNum (perfEval r));
    ("edu", VText (edu r)); ("dept", VText (dept r));
    ("seniority", VNum (seniority r)); ("basePay", VNum (basePay r));
    ("bonus", VNum (bonus r)); ("age_bin", VInt (age_bin r));
    ("totalPay", VNum (totalPay r)); ("log_base", VLog (log_base r));
    ("log_total", VLog (log_total r)); ("log_bonus", VLog (log_bonus r));
    ("male", VInt (male r)) ].

(** [data[name]] on one row; [None] when the frame has no such
    column. *)
Definition column (name : string) (r : row) : option value :=
  snd <$> List.find (fun p => String.eqb (fst p) name) (columns r).

(** What a regression reads of a row: the cells of the columns its
    formula names. *)
Definition regression_input (c : fit_call) (r : row) : list (option value) :=
  (fun n => column n r) <$> formula_columns (formula_of c).

(* ================================================================= *)
(** ** The script (lines 15-220) *)

(** What a top-level operation of the script does. *)
Inductive effect : Type :=
  | Setup                                  (* import, option setting *)
  | Read (var : string)                    (* pd.read_csv *)
  | Transform (col : string)               (* data[col] = ..., data.loc[.., col] = ... *)
  | Display                                (* print(...) *)
  | Summarize (var : string)               (* data.describe() *)
  | GroupAgg (var : string)                (* data.groupby(...).agg(...) *)
  | Regress (var : string) (c : fit_call)  (* smf.<estimator>(...).fit() *)
  | Assign (var : string)                  (* any other assignment *)
  | Export (file : string).                (* writing a report file *)

Record action : Type := Action { line : nat; does : effect }.

(** Statements: an operation, a [with] block, and [try ... except],
    which the language has and the script may or may not use. *)
Local Unset Elimination Schemes.
Inductive stmt : Type :=
  | Do (a : action)
  | With (enter : action) (body : list stmt)
  | Try (body handler : list stmt).
Local Set Elimination Schemes.

(** Induction on statements, with the property at hand for every
    statement of a body. *)
Fixpoint stmt_ind (P : stmt -> Prop)
    (HDo : forall a, P (Do a))
    (HWith : forall enter body, Forall P body -> P (With enter body))
    (HTry : forall body handler,
        Forall P body -> Forall P handler -> P (Try body handler))
    (s : stmt) {struct s} : P s :=
  let all := fix all (l : list stmt) : Forall P l :=
    match l with
    | [] => Forall_nil_2 P
    | s' :: l' => Forall_cons_2 P s' l' (stmt_ind P HDo HWith HTry s') (all l')
    end in
  match s with
  | Do a => HDo a
  | With enter body => HWith enter body (all body)
  | Try body handler => HTry body handler (all body) (all handler)
  end.

Definition at_line (n : nat) (e : effect) : stmt := Do (Action n e).

(** The statements of [code.py], in source order. *)
Definition script : list stmt :=
  [ at_line 15 Setup; at_line 16 Setup; at_line 17 Setup; at_line 18 Setup;
    at_line 19 Setup; at_line 22 Setup;
    at_line 25 (Read "data");
    at_line 33 (Transform "age_bin"); at_line 34 (Transform "age_bin");
    at_line 35 (Transform "age_bin"); at_line 36 (Transform "age_bin");
    at_line 37 (Transform "age_bin"); at_line 38 (Transform "age_bin");
    at_line 41 (Transform "totalPay");
    at_line 44 (Transform "log_base"); at_line 45 (Transform "log_total");
    at_line 46 (Transform "log_bonus");
    at_line 49 (Transform "male");
    at_line 52 Display;
    at_line 55 (Transform "jobTitle"); at_line 56 (Transform "gender");
    at_line 57 (Transform "edu"); at_line 58 (Transform "dept");
    at_line 66 (Summarize "summary_stats");
    at_line 67 (Export "summary.html");
    at_line 70 (GroupAgg "summary_base"); at_line 75 Display;
    at_line 78 (GroupAgg "summary_total"); at_line 83 Display;
    at_line 86 (GroupAgg "summary_bonus"); at_line 91 Display;
    at_line 94 (GroupAgg "summary_perf"); at_line 98 Display;
    at_line 101 (GroupAgg "summary_dept"); at_line 105 Display;
    at_line 108 (GroupAgg "summary_job"); at_line 112 Display;
    at_line 125 (Regress "model1" model1); at_line 126 Display;
    at_line 129 (Regress "model2" model2); at_line 130 Display;
    at_line 133 (Regress "model3" model3); at_line 134 Display;
    at_line 137 (Assign "logbase_pay_gap");
    at_line 138 (Assign "logbase_pay_pvalue");
    at_line 139 Display; at_line 140 Display;
    at_line 143 (Assign "models"); at_line 144 (Assign "model_names");
    at_line 147 (Assign "results_table"); at_line 154 (Assign "control_info");
    at_line 161 (Assign "html_content"); at_line 162 (Assign "html_content");
    With (Action 165 (Export "results.html"))
      [ at_line 166 (Export "results.html") ];
    at_line 177 (Assign "dept_formula");
    at_line 178 (Regress "dept_results" dept_results); at_line 179 Display;
    at_line 182 (Assign "dept_results_df");
    at_line 189 (Export "dept_clean.csv");
    With (Action 192 (Export "dept.html"))
      [ at_line 193 (Export "dept.html") ];
    at_line 204 (Assign "job_formula");
    at_line 205 (Regress "job_results" job_results); at_line 206 Display;
    at_line 209 (Assign "job_results_df");
    at_line 216 (Export "job_clean.csv");
    With (Action 219 (Export "job.html"))
      [ at_line 220 (Export "job.html") ] ].

(** The operations of a statement, in the order they run when none
    raises.  A handler runs only after a raise, so it is left out. *)
Fixpoint actions (s : stmt) : list action :=
  match s with
  | Do a => [a]
  | With enter body => enter :: concat (map actions body)
  | Try body _ => concat (map actions body)
  end.

Definition actions_of (p : list stmt) : list action := concat (map actions p).

(** Whether a statement has an exception handler somewhere. *)
Fixpoint handles (s : stmt) : bool :=
  match s with
  | Do _ => false
  | With _ body => existsb handles body
  | Try _ _ => true
  end.

(** The regressions the script fits, in source order. *)
Definition regressions : list fit_call :=
  omap (fun a => match does a with Regress _ c => Some c | _ => None end)
       (actions_of script).

Definition is_transform (a : action) : bool :=
  match does a with Transform _ => true | _ => false end.
Definition is_groupagg (a : action) : bool :=
  match does a with GroupAgg _ => true | _ => false end.
Definition is_regress (a : action) : bool :=
  match does a with Regress _ _ => true | _ => false end.
Definition is_export (a : action) : bool :=
  match does a with Export _ => true | _ => false end.

(** [before p q l]: in [l], every element with [p] comes before every
    element with [q]. *)
Fixpoint before {A : Type} (p q : A -> bool) (l : list A) : bool :=
  match l with
  | [] => true
  | x :: l' => (negb (q x) || negb (p x || existsb p l')) && before p q l'
  end.

(** Positions (from 0) of the operations with [p]. *)
Definition positions {A : Type} (p : A -> bool) (l : list A) : list nat :=
  fst <$> filter (fun ix => p ix.2 = true) (imap pair l).

Definition assigns (v : string) (a : action) : bool :=
  match does a with
  | Read x | Summarize x | GroupAgg x | Regress x _ | Assign x => String.eqb x v
  | _ => false
  end.

(** The lines that assign to the column [c] of the frame. *)
Definition transforms (c : string) (a : action) : bool :=
  match does a with Transform x => String.eqb x c | _ => false end.

Definition lines_writing (c : string) (l : list action) : list nat :=
  line <$> filter (fun a => transforms c a = true) l.

Definition writes (f : string) (a : action) : bool :=
  match does a with Export x => String.eqb x f | _ => false end.

(** *** Running the script

    An operation changes the state and may raise.  What an operation
    does to the state, and when it raises, is left to the libraries;
    the semantics below is that of the statements around them. *)

(** A record of one step: an operation that ran, or the exit of the
    [with] block an operation entered, and the exception it raised, if
    any. *)
Inductive event (E : Type) : Type :=
  | Ran (a : action) (r : option E)
  | Left (a : action) (r : option E).
Arguments Ran {E} a r.
Arguments Left {E} a r.



Definition ran {E : Type} (ev : event E) : option action :=
  match ev with Ran a _ => Some a | Left _ _ => None end.



Section Semantics.
Context {S E : Type}.
(** The operation itself, and the exit of the [with] block that an
    operation ([open]) entered: the file is closed. *)
Variable run : action -> S -> S * option E.
Variable leave : action -> S -> S * option E.

(** A sequence of statements: the first exception ends it. *)
Fixpoint exec_seq (exec : stmt -> S -> list (event E) * S * option E)
    (p : list stmt) (σ : S) : list (event E) * S * option E :=
  match p with
  | [] => ([], σ, None)
  | s :: p' =>
      let '(t, σ1, r) := exec s σ in
      match r with
      | Some e => (t, σ1, Some e)
      | None =>
          let '(t', σ2, r') := exec_seq exec p' σ1 in
          (t ++ t', σ2, r')
      end
  end.

(** One statement.  A [with] block runs its exit whether the body
    raised or not; the exit of a file does not swallow the exception
    of the body, and an exception of the exit itself takes its place.
    [try] runs its handler when the body raised, and the exception is
    gone. *)
Fixpoint exec (s : stmt) (σ : S) : list (event E) * S * option E :=
  match s with
  | Do a => let '(σ1, r) := run a σ in ([Ran a r], σ1, r)
  | With enter body =>
      let '(σ1, r) := run enter σ in
      match r with
      | Some e => ([Ran enter r], σ1, Some e)
      | None =>
          let '(t, σ2, rb) := exec_seq exec body σ1 in
          let '(σ3, rl) := leave enter σ2 in
          (Ran enter None :: t ++ [Left enter rl], σ3,
           match rl with Some e => Some e | None => rb end)
      end
  | Try body handler =>
      let '(t, σ1, r) := exec_seq exec body σ in
      match r with
      | None => (t, σ1, None)
      | Some _ =>
          let '(t', σ2, r') := exec_seq exec handler σ1 in
          (t ++ t', σ2, r')
      end
  end.

Definition run_program (p : list stmt) (σ : S) : list (event E) * S * option E :=
  exec_seq exec p σ.
End Semantics.


(** A run without exception in which the operations [acts] ran, in
    this order. *)
Definition in_order {S E : Type} (acts : list action)
    (out : list (event E) * S * option E) : Prop :=
  out.2 = None /\ omap ran out.1.1 = acts.

(** Every element with [p] has a smaller position than every element
    with [q]. *)
Definition precedes {A : Type} (p q : A -> bool) (l : list A) : Prop :=
  forall i j a b, l !! i = Some a -> l !! j = Some b ->
                  p a = true -> q b = true -> (i < j)%nat.

(** Two ways the libraries may behave, for running the script: every
    operation succeeds and is counted; or the operation on line [n]
    raises. *)
Definition tally (a : action) (n : nat) : nat * option string :=
  (Datatypes.S n, None).

Definition fail_at (l : nat) (a : action) (n : nat) : nat * option string :=
  if (line a =? l)%nat then (n, Some "error") else (Datatypes.S n, None).

(* ================================================================= *)
(** ** Recoding and sample rows *)

Definition set_gender (g : text) (r : raw_row) : raw_row :=
  {| raw_jobTitle := raw_jobTitle r; raw_gender := g; raw_age := raw_age r;
     raw_perfEval := raw_perfEval r; raw_edu := raw_edu r;
     raw_dept := raw_dept r; raw_seniority := raw_seniority r;
     raw_basePay := raw_basePay r; raw_bonus := raw_bonus r |}.

(** The row with every gender other than 'Male' written as 'Female'. *)
Definition as_female (r : raw_row) : raw_row :=
  if bool_decide (raw_gender r = Some "Male") then r
  else set_gender (Some "Female") r.

(** What a regression reads of the frame. *)
Definition design (c : fit_call) (data : list row) : list (list (option value)) :=
  regression_input c <$> data.

(** An analysis step treats the rows that are not 'Male' as female
    when it gives the same result on the frame with those rows written
    as 'Female'. *)
Definition treated_as_female {A : Type} (step : list row -> A)
    (data : list raw_row) : Prop :=
  step (clean data) = step (clean (as_female <$> data)).


(** An employee row with the given gender, age, base pay and bonus. *)
Definition employee (g : text) (a b s : cell) : raw_row :=
  {| raw_jobTitle := Some "Software Engineer"; raw_gender := g; raw_age := a;
     raw_perfEval := Some 4%Q; raw_edu := Some "College";
     raw_dept := Some "Engineering"; raw_seniority := Some 3%Q;
     raw_basePay := b; raw_bonus := s |}.

Definition sample_male : raw_row :=
  employee (Some "Male") (Some 30%Q) (Some 100000%Q) (Some 5000%Q).
Definition sample_female : raw_row :=
  employee (Some "Female") (Some 41%Q) (Some 98000%Q) (Some 0%Q).
Definition sample_lowercase : raw_row :=
  employee (Some "male") (Some 58%Q) (Some 90000%Q) (Some 4000%Q).
Definition sample_no_age : raw_row :=
  employee (Some "Female") None (Some 70000%Q) (Some 1000%Q).
Definition sample_no_pay : raw_row :=
  employee (Some "Male") (Some 24%Q) None (Some 2000%Q).
Definition sample_zero_pay : raw_row :=
  employee (Some "Female") (Some 35%Q) (Some 0%Q) (Some 0%Q).
Definition sample_clawback : raw_row :=
  employee (Some "Male") (Some 50%Q) (Some 5%Q) (Some (-10)%Q).

(* ================================================================= *)
(** ** Totals over tables *)

(** The sum of [f] over the entries of a list. *)
Definition total {A : Type} (f : A -> Z) (l : list A) : Z :=
  foldr (fun x acc => (f x + acc)%Z) 0%Z l.

(** The number of rows the buckets of a grouping hold together. *)
Definition grouped_rows `{Countable K} (m : gmap K (list row)) : Z :=
  total (fun kg => Z.of_nat (length kg.2)) (map_to_list m).

(** The values of a list that are at most, and at least, [m]. *)
Definition at_most (m : Q) (l : list Q) : list Q :=
  filter (fun x => Qleb_rel x m) l.

Definition at_least (m : Q) (l : list Q) : list Q :=
  filter (fun x => Qleb_rel m x) l.

(* ================================================================= *)
(** ** Traces of the script *)

(** The operation of an event, if it ran to its end. *)
Definition completed {E : Type} (ev : event E) : option action :=
  match ev with
  | Ran a None => Some a
  | _ => None
  end.

(** The report files a list of operations writes, in order. *)
Definition exported (l : list action) : list string :=
  omap (fun a => match does a with Export f => Some f | _ => None end) l.

(** The operations of the plain statements of a statement, handlers
    included, and the operations that enter its [with] blocks. *)
Fixpoint do_actions (s : stmt) : list action :=
  match s with
  | Do a => [a]
  | With _ body => concat (map do_actions body)
  | Try body handler =>
      concat (map do_actions body) ++ concat (map do_actions handler)
  end.

Fixpoint with_enters (s : stmt) : list action :=
  match s with
  | Do _ => []
  | With enter body => enter :: concat (map with_enters body)
  | Try body handler =>
      concat (map with_enters body) ++ concat (map with_enters handler)
  end.

(** A run whose completed operations are the first of [acts], in this
    order, and all of them when nothing was raised. *)
Definition runs_prefix {S E : Type} (acts : list action)
    (out : list (event E) * S * option E) : Prop :=
  omap completed out.1.1 `prefix_of` acts /\
  (out.2 = None -> omap completed out.1.1 = acts).

(** Every [with] block of [p] that was entered was also left. *)
Definition exits_balanced {S E : Type} (p : list stmt)
    (out : list (event E) * S * option E) : Prop :=
  Forall (fun a => Ran a None ∈ out.1.1 -> exists r, Left a r ∈ out.1.1)
         (concat (map with_enters p)).

(** The raw columns: those of the CSV file. *)
Definition raw_columns : list string :=
  [ "jobTitle"; "gender"; "age"; "perfEval"; "edu"; "dept"; "seniority";
    "basePay"; "bonus" ].

Global Instance estimator_eq_dec : EqDecision estimator.
Proof. solve_decision. Defined.

Global Instance fit_call_eq_dec : EqDecision fit_call.
Proof. solve_decision. Defined.

Global Instance effect_eq_dec : EqDecision effect.
Proof. solve_decision. Defined.

Global Instance action_eq_dec : EqDecision action.
Proof. solve_decision. Defined.

(* ================================================================= *)
(** ** The results table (lines 143-162) *)

(** Line 143. *)
Definition models : list fit_call := [model1; model2; model3].

(** [s.replace(old, new)] for a non-empty [old]: the string is read
    from the left; where [old] starts, [new] is written and the
    characters of that occurrence are passed over ([skip] counts those
    still to pass), so occurrences do not overlap. *)
Fixpoint replace_from (old new : string) (skip : nat) (s : string) : string :=
  match s with
  | EmptyString => EmptyString
  | String c s' =>
      match skip with
      | Datatypes.S k => replace_from old new k s'
      | O =>
          if String.prefix old s
          then new +:+ replace_from old new (String.length old - 1) s'
          else String c (replace_from old new 0 s')
      end
  end.

(** [s.replace('', new)]: [new] before every character and at the
    end. *)
Fixpoint between (new s : string) : string :=
  match s with
  | EmptyString => new
  | String c s' => new +:+ String c (between new s')
  end.

Definition replace (old new s : string) : string :=
  if String.eqb old "" then between new s else replace_from old new 0 s.

(** Lines 154-159. *)
Definition control_info : string := "
<tr><td>Controls:</td><td></td><td></td><td></td></tr>
<tr><td>Education</td><td>No</td><td>Yes</td><td>Yes</td></tr>
<tr><td>Department</td><td>No</td><td>No</td><td>Yes</td></tr>
<tr><td>Job Title</td><td>No</td><td>No</td><td>Yes</td></tr>
".

(** Lines 161-162, from what [results_table.as_html()] returns. *)
Definition html_content (as_html : string) : string :=
  replace "</table>" (control_info +:+ "</table>") as_html.

(** [old] occurs in [s]; and [old] occurs in [pre +:+ old +:+ post]
    first right after [pre]. *)
Definition occurs (old s : string) : Prop :=
  exists pre post, s = pre +:+ old +:+ post.

Definition first_after (old pre post : string) : Prop :=
  forall pre' post', pre +:+ old +:+ post = pre' +:+ old +:+ post' ->
                     (String.length pre <= String.length pre')%nat.

(** The cells of the rows of [control_info], row by row. *)
Definition control_rows : list (list string) :=
  (fun l => split_on "|"%char
              (replace "</td></tr>" ""
                 (replace "<tr><td>" "" (replace "</td><td>" "|" l))))
    <$> filter (fun l => l <> "") (split_on "010"%char control_info).

Definition yes_no (b : bool) : string := if b then "Yes" else "No".

(** The row that tells, for each of [models], whether its formula
    names the column [col]. *)
Definition control_row (label col : string) : list string :=
  label :: ((fun m => yes_no (bool_decide (col ∈ regressors (formula_of m))))
              <$> models).

(* ================================================================= *)
(** ** The rows a regression is fitted on *)

(** A cell that the formula interface takes as missing: NaN in a
    number column or in a logarithm, a missing text.  [-inf] is a
    value, not a missing one. *)
Definition is_nan (v : option value) : bool :=
  match v with
  | Some (VNum None) | Some (VText None) | Some (VLog LNaN) => true
  | _ => false
  end.

(** [smf.ols(formula, data=data)] with its default [missing='drop']:
    a row is left out when one of the columns the formula names is
    missing in it. *)
Definition sample (c : fit_call) (data : list row) : list row :=
  filter (fun r => existsb is_nan (regression_input c r) = false) data.

(* ================================================================= *)
(** * Properties *)

(** ** Comparisons *)


Lemma Qltb_ge (a b : Q) : Qltb a b = false <-> (b <= a)%Q.
Proof.
  unfold Qltb. rewrite negb_false_iff. apply Qle_bool_iff.
Qed.

Lemma Qle_bool_false (a b : Q) : Qle_bool a b = false <-> (b < a)%Q.
Proof.
  split.
  - intros H. apply Qnot_le_lt. intros Hle.
    apply Qle_bool_iff in Hle. congruence.
  - intros H. destruct (Qle_bool a b) eqn:Hb; [|reflexivity].
    apply Qle_bool_iff in Hb. lra.
Qed.

(** Case split on a comparison, leaving the order fact in the context. *)
Ltac case_Qle x y :=
  let H := fresh "Hcmp" in
  destruct (Qle_bool x y) eqn:H;
  [apply Qle_bool_iff in H | apply Qle_bool_false in H].

(** ** Age bins (lines 33-38) *)

(** The bin of a present age is the number of the one cutoff condition
    that holds. *)
Lemma bin_age_present (a : Q) :
  holding (cutoffs (Some a)) = 1%nat /\
  (1 <= bin_age (Some a) <= 5)%Z /\
  cutoffs (Some a) !! Z.to_nat (bin_age (Some a) - 1) = Some true.
Proof.
  unfold bin_age, cutoffs, holding, loc_assign, lt, ge, Qltb.
  case_Qle 25%Q a; case_Qle 35%Q a; case_Qle 45%Q a; case_Qle 55%Q a;
    simpl; try (exfalso; lra); repeat split; try lia; reflexivity.
Qed.

Lemma bin_age_missing : bin_age None = 0%Z /\ holding (cutoffs None) = 0%nat.
Proof. split; reflexivity. Qed.

(** C9: after the binning step [age_bin] is one of 0..5; for a row with
    a present age exactly one of the five cutoff conditions holds and
    [age_bin] is in 1..5; a row with a missing age keeps [age_bin = 0]. *)
Theorem age_bin_values (data : list raw_row) (r : row) :
  r ∈ clean data ->
  (0 <= age_bin r <= 5)%Z /\
  (is_Some (age r) ->
     holding (cutoffs (age r)) = 1%nat /\ (1 <= age_bin r <= 5)%Z) /\
  (age r = None -> age_bin r = 0%Z).
Proof.
  unfold clean. rewrite list_elem_of_fmap. intros (raw & -> & _).
  simpl. destruct (raw_age raw) as [a|].
  - destruct (bin_age_present a) as (Hone & Hrange & _).
    split; [lia|]. split; [intros _; split; [exact Hone | exact Hrange]|].
    intros Hnone; discriminate.
  - split; [cbn; lia|]. split; [intros [x Hx]; discriminate|].
    intros _; reflexivity.
Qed.

Lemma age_bin_values_witness :
  (0 <= age_bin (clean_row sample_male) <= 5)%Z /\
  (is_Some (age (clean_row sample_male)) ->
     holding (cutoffs (age (clean_row sample_male))) = 1%nat /\
     (1 <= age_bin (clean_row sample_male) <= 5)%Z) /\
  (age (clean_row sample_male) = None -> age_bin (clean_row sample_male) = 0%Z).
Proof.
  apply (age_bin_values [sample_male; sample_no_age] (clean_row sample_male)).
  simpl. left.
Defined.

Example age_bin_samples :
  age_bin <$> clean [sample_male; sample_female; sample_lowercase;
                     sample_no_age; sample_no_pay]
  = [2; 3; 5; 0; 1]%Z.
Proof. reflexivity. Qed.

(** ** Total compensation and logarithms (lines 41-46) *)



Lemma np_log_nonpos (x : Q) :
  (x <= 0)%Q -> np_log (Some x) = if Qeq_bool x 0 then LNegInf else LNaN.
Proof.
  intros H. unfold np_log. apply Qltb_ge in H. rewrite H. reflexivity.
Qed.



Example total_pay_samples :
  (fun r => (totalPay r, log_total r))
    <$> clean [sample_male; sample_no_pay; sample_zero_pay; sample_clawback]
  = [ (Some (100000 + 5000)%Q, Ln (100000 + 5000));
      (None, LNaN); (Some (0 + 0)%Q, LNegInf); (Some (5 + -10)%Q, LNaN) ].
Proof. reflexivity. Qed.

(** ** Regression formulas (lines 125-205) *)

Example regressions_in_order :
  regressions = [model1; model2; model3; dept_results; job_results].
Proof. reflexivity. Qed.

Example formulas_parse :
  formula_of <$> regressions =
  [ {| lhs := "log_base"; rhs := [[Var "male"]] |};
    {| lhs := "log_base";
       rhs := [[Var "male"]; [Var "perfEval"]; [C "age_bin"]; [C "edu"]] |};
    {| lhs := "log_base";
       rhs := [[Var "male"]; [Var "perfEval"]; [C "age_bin"]; [C "edu"];
               [C "dept"]; [Var "seniority"]; [C "jobTitle"]] |};
    {| lhs := "log_base";
       rhs := [[Var "male"]; [C "dept"]; [Var "male"; C "dept"];
               [Var "perfEval"]; [C "age_bin"]; [C "edu"];
               [Var "seniority"]; [C "jobTitle"]] |};
    {| lhs := "log_base";
       rhs := [[Var "male"]; [C "jobTitle"]; [Var "male"; C "jobTitle"];
               [Var "perfEval"]; [C "age_bin"]; [C "edu"];
               [Var "seniority"]; [C "dept"]] |} ].
Proof. vm_compute. reflexivity. Qed.

(** C1: the regressors of [model1] (male only) are a strict subset of
    those of [model2] (male, perfEval, age_bin, edu), which are a strict
    subset of those of [model3] (dept, seniority and jobTitle added);
    every regressor of an earlier model is one of every later model. *)
Theorem controls_increase :
  regressors (formula_of model1) = ["male"] /\
  regressors (formula_of model2) = ["male"; "perfEval"; "age_bin"; "edu"] /\
  regressors (formula_of model3) =
    ["male"; "perfEval"; "age_bin"; "edu"; "dept"; "seniority"; "jobTitle"] /\
  regressors (formula_of model1) ⊂ regressors (formula_of model2) /\
  regressors (formula_of model2) ⊂ regressors (formula_of model3) /\
  regressors (formula_of model1) ⊆ regressors (formula_of model3) /\
  rhs (formula_of model1) ⊂ rhs (formula_of model2) /\
  rhs (formula_of model2) ⊂ rhs (formula_of model3).
Proof.
  repeat split; try (vm_compute; reflexivity);
    first [ refine (bool_decide_unpack _ _); vm_compute; exact I ].
Qed.

(** Closes a goal that is decidable and holds by computation. *)
Ltac by_evaluation := refine (bool_decide_unpack _ _); vm_compute; exact I.

(** C2: each of the five regressions the script fits is an [ols] fit
    whose outcome is [log_base], the logarithm of [basePay]; no formula
    names [log_total] or [log_bonus]. *)
Theorem every_fit_is_ols_on_log_base :
  length regressions = 5%nat /\
  Forall (fun c =>
            fit_estimator c = ols /\
            exists f, parse_formula (fit_formula c) = Some f /\
                      lhs f = "log_base" /\
                      ("log_total" ∉ formula_columns f) /\
                      ("log_bonus" ∉ formula_columns f)) regressions /\
  forall raw : raw_row,
    column "log_base" (clean_row raw) = Some (VLog (log_base (clean_row raw))) /\
    log_base (clean_row raw) = np_log (basePay (clean_row raw)).
Proof.
  split; [reflexivity|]. split.
  - repeat constructor;
      (eexists; split; [vm_compute; reflexivity|]);
      (split; [reflexivity|]); split; by_evaluation.
  - intros raw. split; reflexivity.
Qed.

(** C3: the last two regressions are the interaction models.  The
    formula of the first has the interaction of [male] with [C(dept)],
    that of the second the interaction of [male] with [C(jobTitle)];
    both have every term of [model3], so [perfEval], [C(age_bin)],
    [C(edu)], [seniority] and the categorical that is not interacted. *)
Theorem interaction_models :
  drop 3 regressions = [dept_results; job_results] /\
  ([Var "male"; C "dept"] ∈ rhs (formula_of dept_results)) /\
  ([Var "male"; C "jobTitle"] ∈ rhs (formula_of job_results)) /\
  rhs (formula_of model3) ⊆ rhs (formula_of dept_results) /\
  rhs (formula_of model3) ⊆ rhs (formula_of job_results) /\
  [[Var "perfEval"]; [C "age_bin"]; [C "edu"]; [Var "seniority"]; [C "jobTitle"]]
    ⊆ rhs (formula_of dept_results) /\
  [[Var "perfEval"]; [C "age_bin"]; [C "edu"]; [Var "seniority"]; [C "dept"]]
    ⊆ rhs (formula_of job_results) /\
  ([Var "male"; C "dept"] ∉ rhs (formula_of model3)) /\
  ([Var "male"; C "jobTitle"] ∉ rhs (formula_of model3)).
Proof.
  split; [reflexivity|]. repeat split; by_evaluation.
Qed.

(** ** The male dummy (line 49) *)

Lemma male_dummy_one (g : text) : male_dummy g = 1%Z <-> g = Some "Male".
Proof.
  unfold male_dummy. case_bool_decide; split; intros; congruence.
Qed.

Lemma male_dummy_zero (g : text) : g <> Some "Male" -> male_dummy g = 0%Z.
Proof.
  intros Hg. unfold male_dummy. case_bool_decide; congruence.
Qed.

(** Writes out which cells a regression reads of a row. *)
Ltac read_columns :=
  unfold regression_input;
  match goal with
  | |- context [formula_columns ?f] =>
      let l := eval vm_compute in (formula_columns f) in
      change (formula_columns f) with l
  end;
  cbn.

Lemma regression_input_as_female (c : fit_call) (raw : raw_row) :
  c ∈ regressions ->
  regression_input c (clean_row (as_female raw)) = regression_input c (clean_row raw).
Proof.
  intros Hc. unfold as_female. case_bool_decide as Hg; [reflexivity|].
  assert (Hm : male_dummy (raw_gender raw) = male_dummy (Some "Female")).
  { rewrite (male_dummy_zero _ Hg). reflexivity. }
  rewrite regressions_in_order in Hc.
  repeat (apply elem_of_cons in Hc as [-> | Hc]);
    [ .. | apply elem_of_nil in Hc; contradiction ];
    read_columns; rewrite Hm; reflexivity.
Qed.

(** C8, as far as it holds: [male] is 1 exactly for the gender 'Male'
    and 0 for every other value, a missing one and 'male' included;
    every regression reads a row coded 0 as it reads the same row with
    the gender 'Female', and no formula names the [gender] column. *)
Theorem male_dummy_coding (data : list raw_row) :
  Forall (fun r => (male r = 1%Z <-> gender r = Some "Male") /\
                   (gender r <> Some "Male" -> male r = 0%Z)) (clean data) /\
  male_dummy None = 0%Z /\ male_dummy (Some "Female") = 0%Z /\
  male_dummy (Some "male") = 0%Z /\
  Forall (fun c => treated_as_female (design c) data /\
                   ("gender" ∉ formula_columns (formula_of c))) regressions.
Proof.
  split; [|split; [reflexivity|split; [reflexivity|split; [reflexivity|]]]].
  - unfold clean. apply Forall_fmap, Forall_forall. intros raw _. simpl.
    split; [apply male_dummy_one | apply male_dummy_zero].
  - apply Forall_forall. intros c Hc. split.
    + unfold treated_as_female, design, clean.
      rewrite <- !list_fmap_compose. apply list_fmap_ext.
      intros i raw _. simpl. symmetry. apply regression_input_as_female, Hc.
    + revert c Hc. apply Forall_forall. repeat constructor; by_evaluation.
Qed.

(** C8 as stated fails in the summary statistics: they group by the
    [gender] column, so a row with gender 'male' is coded 0 and yet is
    no row of the 'Female' group. *)
Lemma lowercase_male_is_its_own_group :
  male (clean_row sample_lowercase) = 0%Z /\
  ~ treated_as_female summary_base [sample_lowercase] /\
  summary_base (clean [sample_lowercase]) !! "Female" = None /\
  s3_cnt <$> summary_base (clean [sample_lowercase]) !! "male" = Some 1%Z.
Proof.
  split; [reflexivity|]. split; [|split; vm_compute; reflexivity].
  unfold treated_as_female. intros Heq.
  apply (f_equal (fun t => s3_cnt <$> t !! "Female")) in Heq.
  vm_compute in Heq. discriminate.
Qed.

(** ** Guards of the logarithms (lines 44-46) *)





Example log_samples :
  (fun r => (log_base r, log_bonus r))
    <$> clean [sample_female; sample_zero_pay; sample_no_pay; sample_clawback]
  = [ (Ln 98000, Ln (0 + 1)); (LNegInf, Ln (0 + 1));
      (LNaN, Ln (2000 + 1)); (Ln 5, LNaN) ].
Proof. reflexivity. Qed.

(** ** Grouping (lines 70-112) *)

Section Grouping.
Context `{Countable K}.
Variable key : row -> option K.

Lemma group_rows_cons (k : K) (r : row) (data : list row) :
  group_rows key k (r :: data) =
  if decide (key r = Some k) then r :: group_rows key k data
  else group_rows key k data.
Proof. unfold group_rows. rewrite filter_cons. reflexivity. Qed.

(** The bucket of [k] after the fold: what it held, then the rows of
    key [k] in frame order. *)
Lemma groupby_fold_lookup (data : list row) (m : gmap K (list row)) (k : K) :
  foldl (fun m r => match key r with
                    | Some k => bucket_add m k r
                    | None => m
                    end) m data !! k =
  match group_rows key k data with
  | [] => m !! k
  | g => Some (default [] (m !! k) ++ g)
  end.
Proof.
  revert m. induction data as [|r data IH]; intros m; [reflexivity|].
  cbn [foldl]. rewrite IH, group_rows_cons. clear IH.
  destruct (key r) as [k'|] eqn:Hk.
  - destruct (decide (Some k' = Some k)) as [Heq|Hne].
    + injection Heq as ->. unfold bucket_add. rewrite lookup_insert_eq.
      cbn [default]. destruct (group_rows key k data) as [|r' g].
      * reflexivity.
      * unfold id. rewrite <- app_assoc. reflexivity.
    + unfold bucket_add. rewrite lookup_insert_ne by congruence.
      reflexivity.
  - destruct (decide (None = Some k)); [discriminate|reflexivity].
Qed.

Lemma groupby_lookup (data : list row) (k : K) :
  groupby key data !! k =
  match group_rows key k data with
  | [] => None
  | g => Some g
  end.
Proof.
  unfold groupby. rewrite groupby_fold_lookup, lookup_empty.
  destruct (group_rows key k data); reflexivity.
Qed.

Lemma group_rows_nonempty (data : list row) (k : K) :
  group_rows key k data <> [] <-> exists r, r ∈ data /\ key r = Some k.
Proof.
  unfold group_rows. split.
  - intros Hne. destruct (filter _ data) as [|r g] eqn:Hf; [contradiction|].
    exists r. apply and_comm.
    apply (list_elem_of_filter (fun r => key r = Some k)).
    rewrite Hf. left.
  - intros (r & Hr & Hk) Hnil.
    assert (Hin : r ∈ filter (fun r => key r = Some k) data)
      by (apply list_elem_of_filter; split; assumption).
    rewrite Hnil in Hin. apply elem_of_nil in Hin. exact Hin.
Qed.

(** A table made from the buckets has a row for [k] exactly when
    some row of the frame has key [k], and its entry is the aggregate
    of the rows of key [k]. *)
Lemma agg_lookup {A : Type} (f : list row -> A) (data : list row) (k : K) (st : A) :
  (f <$> groupby key data) !! k = Some st <->
  group_rows key k data <> [] /\ st = f (group_rows key k data).
Proof.
  rewrite lookup_fmap, groupby_lookup.
  destruct (group_rows key k data) as [|r g]; cbn.
  - split; [discriminate|]. intros [Hne _]. contradiction.
  - split.
    + intros [= <-]. split; [discriminate|reflexivity].
    + intros [_ ->]. reflexivity.
Qed.
End Grouping.

Lemma key2_Some (a b : row -> text) (r : row) (x y : string) :
  key2 a b r = Some (x, y) <-> a r = Some x /\ b r = Some y.
Proof.
  unfold key2. destruct (a r), (b r); split;
    try (intros [= -> ->]; split; reflexivity);
    try (intros [[= ->] [= ->]]; reflexivity);
    try discriminate; intros [? ?]; discriminate.
Qed.

Lemma group_rows_key2 (a b : row -> text) (x y : string) (data : list row) :
  group_rows (key2 a b) (x, y) data = pair_rows a b x y data.
Proof.
  unfold group_rows, pair_rows. apply list_filter_iff.
  intros r. apply key2_Some.
Qed.

(** Every group of a two-key grouping holds the rows of its pair of
    keys, also the groups of the pairs no row has. *)
Lemma groupby2_lookup (observed : bool) (a b : row -> text) (data : list row)
    (x y : string) (g : list row) :
  groupby2 observed a b data !! (x, y) = Some g -> g = pair_rows a b x y data.
Proof.
  unfold groupby2. rewrite <- group_rows_key2.
  assert (Hb : forall g, groupby (key2 a b) data !! (x, y) = Some g ->
                    g = group_rows (key2 a b) (x, y) data).
  { intros g'. rewrite groupby_lookup.
    destruct (group_rows (key2 a b) (x, y) data); [discriminate|].
    intros [= <-]. reflexivity. }
  destruct observed; [apply Hb|].
  rewrite lookup_union_Some_raw. intros [Hg | [Hnone Hfill]]; [apply Hb, Hg|].
  apply elem_of_list_to_map_2, list_elem_of_fmap in Hfill
    as (k & [= _ ->] & _).
  rewrite groupby_lookup in Hnone.
  destruct (group_rows (key2 a b) (x, y) data); [reflexivity|discriminate].
Qed.

(** A pair some row has is a group, whatever the flag. *)
Lemma groupby2_observed_pair (observed : bool) (a b : row -> text)
    (data : list row) (x y : string) :
  pair_rows a b x y data <> [] ->
  groupby2 observed a b data !! (x, y) = Some (pair_rows a b x y data).
Proof.
  intros Hne. rewrite <- group_rows_key2 in *.
  assert (Hb : groupby (key2 a b) data !! (x, y)
               = Some (group_rows (key2 a b) (x, y) data)).
  { rewrite groupby_lookup.
    destruct (group_rows (key2 a b) (x, y) data); [contradiction|reflexivity]. }
  unfold groupby2. destruct observed; [exact Hb|].
  apply lookup_union_Some_raw. left. exact Hb.
Qed.

(** With [observed=True] only the pairs some row has are groups. *)
Lemma groupby2_observed_only (a b : row -> text) (data : list row)
    (x y : string) :
  is_Some (groupby2 true a b data !! (x, y)) -> pair_rows a b x y data <> [].
Proof.
  unfold groupby2. rewrite <- group_rows_key2, groupby_lookup.
  destruct (group_rows (key2 a b) (x, y) data).
  - intros [g Hg]. discriminate.
  - intros _. discriminate.
Qed.

(** With [observed=False] every pair of categories is a group. *)
Lemma groupby2_all_pairs (a b : row -> text) (data : list row) (x y : string) :
  x ∈ categories a data -> y ∈ categories b data ->
  is_Some (groupby2 false a b data !! (x, y)).
Proof.
  intros Hx Hy. unfold groupby2.
  destruct ((groupby (key2 a b) data ∪ _) !! (x, y)) as [g|] eqn:Hl;
    [eexists; reflexivity|].
  apply lookup_union_None in Hl as [_ Hfill].
  apply not_elem_of_list_to_map in Hfill. exfalso. apply Hfill.
  rewrite <- list_fmap_compose. apply list_elem_of_fmap.
  exists (x, y). split; [reflexivity|].
  apply list_elem_of_cprod. split; assumption.
Qed.

Lemma elem_of_sort_values {A : Type} (t : gmap (string * string) A)
    (k : string * string) (st : A) :
  (k, st) ∈ sort_values t <-> t !! k = Some st.
Proof.
  unfold sort_values. rewrite merge_sort_Permutation.
  apply elem_of_map_to_list.
Qed.

Lemma NoDup_sort_values {A : Type} (t : gmap (string * string) A) :
  NoDup (fst <$> sort_values t).
Proof.
  unfold sort_values. rewrite merge_sort_Permutation.
  apply NoDup_fst_map_to_list.
Qed.

(** ** Aggregates *)

Lemma omap_present {A : Type} (c : row -> option A) (rows : list row) :
  omap c (present c rows) = omap c rows /\
  length (omap c rows) = length (present c rows).
Proof.
  unfold present. induction rows as [|r rows [IH1 IH2]]; [split; reflexivity|].
  rewrite filter_cons. destruct (c r) as [v|] eqn:Hv.
  - rewrite decide_True by (eexists; reflexivity).
    cbn. rewrite Hv. cbn. rewrite IH1, IH2. split; reflexivity.
  - rewrite decide_False by (intros [? ?]; discriminate).
    cbn. rewrite Hv. split; assumption.
Qed.


Lemma count_present {A : Type} (c : row -> option A) (rows : list row) :
  count c rows = Z.of_nat (length (present c rows)).
Proof.
  unfold count, dropna. destruct (omap_present c rows) as [_ ->]. reflexivity.
Qed.

Lemma present_all {A : Type} (c : row -> option A) (rows : list row) :
  Forall (fun r => is_Some (c r)) rows -> present c rows = rows.
Proof.
  unfold present. induction 1 as [|r rows Hr _ IH]; [reflexivity|].
  rewrite filter_cons, decide_True by assumption. rewrite IH. reflexivity.
Qed.

Lemma pair_rows_keys (a b : row -> text) (x y : string) (data : list row) :
  Forall (fun r => a r = Some x /\ b r = Some y) (pair_rows a b x y data).
Proof.
  apply Forall_forall. intros r Hr.
  apply (list_elem_of_filter (fun r => a r = Some x /\ b r = Some y)) in Hr.
  apply Hr.
Qed.

(** Counting the first key of a group counts the rows of the group. *)
Lemma count_first_key (a b : row -> text) (x y : string) (data : list row) :
  count a (pair_rows a b x y data)
  = Z.of_nat (length (pair_rows a b x y data)).
Proof.
  rewrite count_present, present_all; [reflexivity|].
  eapply Forall_impl; [apply pair_rows_keys|].
  intros r [Ha _]. rewrite Ha. eexists; reflexivity.
Qed.

(** ** The summary tables *)

Lemma gender_table3 (c : row -> cell) (data : list row) (g : string) (st : stats3) :
  ((fun rows => {| s3_mean := mean c rows; s3_med := median c rows;
                   s3_cnt := count c rows |}) <$> groupby gender data) !! g
    = Some st <->
  group_rows gender g data <> [] /\
  st = {| s3_mean := arith_mean (omap c (group_rows gender g data));
          s3_med := median_of (omap c (group_rows gender g data));
          s3_cnt := Z.of_nat (length (present c (group_rows gender g data))) |}.
Proof.
  rewrite agg_lookup, count_present. reflexivity.
Qed.

Lemma pair_table (observed : bool) (a b : row -> text) (data : list row) :
  let table :=
    sort_values ((fun g => {| s2_mean := mean totalPay g; s2_cnt := count a g |})
                   <$> groupby2 observed a b data) in
  NoDup (fst <$> table) /\
  (forall x y st, ((x, y), st) ∈ table ->
     st = {| s2_mean := arith_mean (omap totalPay (pair_rows a b x y data));
             s2_cnt := Z.of_nat (length (pair_rows a b x y data)) |}) /\
  (forall x y, pair_rows a b x y data <> [] -> exists st, ((x, y), st) ∈ table).
Proof.
  cbv zeta. split; [apply NoDup_sort_values|]. split.
  - intros x y st Hin. apply elem_of_sort_values in Hin.
    rewrite lookup_fmap in Hin.
    destruct (groupby2 observed a b data !! (x, y)) as [g|] eqn:Hg;
      [|discriminate].
    apply groupby2_lookup in Hg as ->. cbn in Hin. injection Hin as <-.
    rewrite count_first_key. reflexivity.
  - intros x y Hne. eexists. apply elem_of_sort_values.
    rewrite lookup_fmap, (groupby2_observed_pair _ _ _ _ _ _ Hne).
    reflexivity.
Qed.

(** C4, as far as it holds: the tables by gender have one row per
    gender value of the frame, with the mean (and median) of the column
    over the rows of that gender in which the column is present and the
    number of those rows as the count; the tables by department and
    gender and by job title and gender have one row per pair, with the
    mean of [totalPay] over the rows of the pair in which it is present
    and the number of rows of the pair as the count. *)
Theorem summary_statistics (data : list row) :
  (forall g st, summary_base data !! g = Some st <->
     group_rows gender g data <> [] /\
     st = {| s3_mean := arith_mean (omap basePay (group_rows gender g data));
             s3_med := median_of (omap basePay (group_rows gender g data));
             s3_cnt := Z.of_nat (length (present basePay (group_rows gender g data))) |}) /\
  (forall g st, summary_total data !! g = Some st <->
     group_rows gender g data <> [] /\
     st = {| s3_mean := arith_mean (omap totalPay (group_rows gender g data));
             s3_med := median_of (omap totalPay (group_rows gender g data));
             s3_cnt := Z.of_nat (length (present totalPay (group_rows gender g data))) |}) /\
  (forall g st, summary_bonus data !! g = Some st <->
     group_rows gender g data <> [] /\
     st = {| s3_mean := arith_mean (omap bonus (group_rows gender g data));
             s3_med := median_of (omap bonus (group_rows gender g data));
             s3_cnt := Z.of_nat (length (present bonus (group_rows gender g data))) |}) /\
  (forall g st, summary_perf data !! g = Some st <->
     group_rows gender g data <> [] /\
     st = {| s2_mean := arith_mean (omap perfEval (group_rows gender g data));
             s2_cnt := Z.of_nat (length (present perfEval (group_rows gender g data))) |}) /\
  (forall observed,
     NoDup (fst <$> summary_dept observed data) /\
     (forall d g st, ((d, g), st) ∈ summary_dept observed data ->
        st = {| s2_mean := arith_mean (omap totalPay (pair_rows dept gender d g data));
                s2_cnt := Z.of_nat (length (pair_rows dept gender d g data)) |}) /\
     (forall d g, pair_rows dept gender d g data <> [] ->
        exists st, ((d, g), st) ∈ summary_dept observed data)) /\
  (forall observed,
     NoDup (fst <$> summary_job observed data) /\
     (forall j g st, ((j, g), st) ∈ summary_job observed data ->
        st = {| s2_mean := arith_mean (omap totalPay (pair_rows jobTitle gender j g data));
                s2_cnt := Z.of_nat (length (pair_rows jobTitle gender j g data)) |}) /\
     (forall j g, pair_rows jobTitle gender j g data <> [] ->
        exists st, ((j, g), st) ∈ summary_job observed data)).
Proof.
  repeat apply conj.
  - intros g st. apply gender_table3.
  - intros g st. apply gender_table3.
  - intros g st. apply gender_table3.
  - intros g st. unfold summary_perf. rewrite agg_lookup, count_present.
    reflexivity.
  - intros observed. apply (pair_table observed dept gender data).
  - intros observed. apply (pair_table observed jobTitle gender data).
Qed.

(** C4 as stated fails where a value is missing: of two 'Male' rows,
    one without base pay, the count of [summary_base] is 1, and the mean
    is that of the one base pay present. *)
Lemma count_skips_missing_pay :
  let data := clean [sample_no_pay; sample_male] in
  length (group_rows gender "Male" data) = 2%nat /\
  s3_cnt <$> summary_base data !! "Male" = Some 1%Z /\
  s3_mean <$> summary_base data !! "Male" = Some (arith_mean [100000%Q]).
Proof. repeat split; vm_compute; reflexivity. Qed.

Example summary_dept_sample :
  summary_dept true (clean [sample_male; sample_female; sample_no_pay])
  = [ (("Engineering", "Female"),
       {| s2_mean := arith_mean [(98000 + 0)%Q]; s2_cnt := 1 |});
      (("Engineering", "Male"),
       {| s2_mean := arith_mean [(100000 + 5000)%Q]; s2_cnt := 2 |}) ].
Proof. vm_compute. reflexivity. Qed.

(** ** Order of the operations *)

Lemma existsb_lookup {A : Type} (p : A -> bool) (l : list A) :
  existsb p l = true <-> exists i a, l !! i = Some a /\ p a = true.
Proof.
  rewrite existsb_exists. split.
  - intros (a & Hin & Hp). apply list_elem_of_In, list_elem_of_lookup in Hin
      as [i Hi]. eauto.
  - intros (i & a & Hi & Hp). exists a. split; [|exact Hp].
    apply list_elem_of_In, list_elem_of_lookup. eauto.
Qed.

(** [before p q l] says that every element with [p] has a smaller
    position than every element with [q]. *)
Lemma before_spec {A : Type} (p q : A -> bool) (l : list A) :
  before p q l = true <-> precedes p q l.
Proof.
  unfold precedes.
  induction l as [|x l IH]; cbn [before].
  - split; [|reflexivity]. intros _ i j a b Hi. discriminate.
  - rewrite andb_true_iff, IH. clear IH. split.
    + intros [Hx Hl] [|i] [|j] a b Hi Hj Hp Hq; cbn in Hi, Hj.
      * injection Hi as <-. injection Hj as <-.
        rewrite Hp, Hq in Hx. discriminate.
      * lia.
      * injection Hj as <-. rewrite Hq in Hx. cbn in Hx.
        assert (He : existsb p l = true) by (apply existsb_lookup; eauto).
        rewrite He, orb_true_r in Hx. discriminate.
      * apply -> Nat.succ_lt_mono. eapply Hl; eassumption.
    + intros Hall. split.
      * destruct (q x) eqn:Hq; [|reflexivity]. cbn.
        destruct (p x) eqn:Hp.
        { specialize (Hall 0%nat 0%nat x x eq_refl eq_refl Hp Hq). lia. }
        destruct (existsb p l) eqn:He; [|reflexivity].
        apply existsb_lookup in He as (i & a & Hi & Hpa).
        specialize (Hall (Datatypes.S i) 0%nat a x Hi eq_refl Hpa Hq). lia.
      * intros i j a b Hi Hj Hp Hq.
        apply Nat.succ_lt_mono.
        apply (Hall (Datatypes.S i) (Datatypes.S j) a b Hi Hj Hp Hq).
Qed.

(** ** Exceptions *)






Section Running.
Context {S E : Type}.
Variable run : action -> S -> S * option E.
Variable leave : action -> S -> S * option E.

Local Abbreviation step := (exec run leave).
Local Abbreviation steps := (exec_seq (exec run leave)).


Lemma handles_body (body : list stmt) :
  existsb handles body = false -> Forall (fun s => handles s = false) body.
Proof.
  induction body as [|s body IH]; cbn; [constructor|].
  intros [Hs Hb]%orb_false_iff. constructor; [exact Hs|apply IH, Hb].
Qed.




(** When no operation raises, the operations run in source order. *)
Hypothesis run_ok : forall a σ, (run a σ).2 = None.
Hypothesis leave_ok : forall a σ, (leave a σ).2 = None.

Lemma exec_seq_in_order (p : list stmt) :
  Forall (fun s => forall σ, in_order (actions s) (step s σ)) p ->
  forall σ, in_order (actions_of p) (steps p σ).
Proof.
  induction 1 as [|s p Hs _ IH]; intros σ; [split; reflexivity|].
  cbn [exec_seq]. specialize (Hs σ).
  destruct (step s σ) as [[t σ1] r]. destruct Hs as [Hr Ht]. cbn in Hr, Ht.
  subst r. specialize (IH σ1).
  destruct (steps p σ1) as [[t' σ2] r']. destruct IH as [Hr' Ht'].
  unfold in_order. cbn in *. split; [exact Hr'|].
  rewrite omap_app, Ht, Ht'. reflexivity.
Qed.

Lemma exec_in_order (s : stmt) (σ : S) : in_order (actions s) (step s σ).
Proof.
  revert σ.
  induction s as [a|enter body IH|body handler IH _] using stmt_ind; intros σ.
  - cbn. pose proof (run_ok a σ) as Hr.
    destruct (run a σ) as [σ1 r]. cbn in Hr. subst r. split; reflexivity.
  - cbn [exec]. pose proof (run_ok enter σ) as Hr.
    destruct (run enter σ) as [σ1 r]. cbn in Hr. subst r.
    pose proof (exec_seq_in_order body IH σ1) as [Hb Ht].
    destruct (steps body σ1) as [[t σ2] rb].
    pose proof (leave_ok enter σ2) as Hl.
    destruct (leave enter σ2) as [σ3 rl]. unfold in_order. cbn in *.
    subst rb rl. split; [reflexivity|]. rewrite omap_app, Ht. cbn. rewrite app_nil_r.
    reflexivity.
  - cbn [exec].
    pose proof (exec_seq_in_order body IH σ) as [Hb Ht].
    destruct (steps body σ) as [[t σ1] rb]. unfold in_order. cbn in *.
    subst rb. split; [reflexivity|exact Ht].
Qed.

Lemma program_in_order (p : list stmt) (σ : S) :
  in_order (actions_of p) (run_program run leave p σ).
Proof.
  apply exec_seq_in_order, Forall_forall. intros s _ σ'. apply exec_in_order.
Qed.
End Running.

(** ** The pipeline (lines 15-220) *)

Example stage_positions :
  positions is_transform (actions_of script)
    = [7; 8; 9; 10; 11; 12; 13; 14; 15; 16; 17; 19; 20; 21; 22]%nat /\
  positions is_groupagg (actions_of script) = [25; 27; 29; 31; 33; 35]%nat /\
  positions is_regress (actions_of script) = [37; 39; 41; 56; 63]%nat /\
  positions is_export (actions_of script)
    = [24; 53; 54; 59; 60; 61; 66; 67; 68]%nat.
Proof. repeat split; vm_compute; reflexivity. Qed.

(** The cleaning block writes each column it adds once ([age_bin] by
    six masked assignments in a row) and leaves the pay columns as they
    were read; nothing after line 58 writes to the frame. *)
Example columns_written :
  (fun c => (c, lines_writing c (actions_of script)))
    <$> ["age_bin"; "totalPay"; "log_base"; "log_total"; "log_bonus"; "male";
         "basePay"; "bonus"; "age"]
  = [ ("age_bin", [33; 34; 35; 36; 37; 38]%nat); ("totalPay", [41%nat]);
      ("log_base", [44%nat]); ("log_total", [45%nat]); ("log_bonus", [46%nat]);
      ("male", [49%nat]); ("basePay", []); ("bonus", []); ("age", []) ].
Proof. vm_compute. reflexivity. Qed.

(** Decides an order fact about the script. *)
Ltac order_by_evaluation := apply before_spec; vm_compute; reflexivity.

(** C5, as far as it holds: when no operation raises the operations run
    in source order; every data transformation comes before every
    grouped aggregation and every grouped aggregation before every
    regression; each report is written after the call that computes its
    content, and the exports are interleaved with the later stages:
    summary.html after [describe] and before the grouped aggregations,
    results.html after the three control models and before the
    interaction models, the department reports after the department
    regression and before the job-title regression, the job-title
    reports after the job-title regression. *)
Theorem pipeline_order {S E : Type} (run leave : action -> S -> S * option E)
    (σ : S) :
  (forall a σ', (run a σ').2 = None) ->
  (forall a σ', (leave a σ').2 = None) ->
  let acts := actions_of script in
  in_order acts (run_program run leave script σ) /\
  precedes is_transform is_groupagg acts /\
  precedes is_groupagg is_regress acts /\
  precedes (assigns "summary_stats") (writes "summary.html") acts /\
  precedes (writes "summary.html") is_groupagg acts /\
  precedes (fun a => assigns "model1" a || assigns "model2" a || assigns "model3" a)
           (writes "results.html") acts /\
  precedes (writes "results.html") (assigns "dept_results") acts /\
  precedes (assigns "dept_results")
           (fun a => writes "dept_clean.csv" a || writes "dept.html" a) acts /\
  precedes (fun a => writes "dept_clean.csv" a || writes "dept.html" a)
           (assigns "job_results") acts /\
  precedes (assigns "job_results")
           (fun a => writes "job_clean.csv" a || writes "job.html" a) acts.
Proof.
  intros Hrun Hleave acts.
  split; [apply program_in_order; assumption|].
  subst acts. repeat split; order_by_evaluation.
Qed.

Lemma pipeline_order_witness :
  let acts := actions_of script in
  in_order acts (run_program tally tally script 0%nat) /\
  precedes is_transform is_groupagg acts /\
  precedes is_groupagg is_regress acts /\
  precedes (assigns "summary_stats") (writes "summary.html") acts /\
  precedes (writes "summary.html") is_groupagg acts /\
  precedes (fun a => assigns "model1" a || assigns "model2" a || assigns "model3" a)
           (writes "results.html") acts /\
  precedes (writes "results.html") (assigns "dept_results") acts /\
  precedes (assigns "dept_results")
           (fun a => writes "dept_clean.csv" a || writes "dept.html" a) acts /\
  precedes (fun a => writes "dept_clean.csv" a || writes "dept.html" a)
           (assigns "job_results") acts /\
  precedes (assigns "job_results")
           (fun a => writes "job_clean.csv" a || writes "job.html" a) acts.
Proof.
  apply (pipeline_order tally tally 0%nat); intros a n; reflexivity.
Defined.

(** C5 as stated fails at its last step: results.html is written
    (line 165) before the department regression is fitted (line 178),
    and summary.html (line 67) before the first grouped aggregation
    (line 70). *)
Lemma report_written_before_regression :
  let acts := actions_of script in
  acts !! 53%nat = Some (Action 165 (Export "results.html")) /\
  acts !! 56%nat = Some (Action 178 (Regress "dept_results" dept_results)) /\
  acts !! 24%nat = Some (Action 67 (Export "summary.html")) /\
  acts !! 25%nat = Some (Action 70 (GroupAgg "summary_base")) /\
  ~ precedes is_regress is_export acts /\
  ~ precedes is_groupagg is_export acts.
Proof.
  cbv zeta. repeat split; try reflexivity.
  - intros Hp.
    specialize (Hp 56%nat 53%nat _ _ eq_refl eq_refl eq_refl eq_refl). lia.
  - intros Hp.
    specialize (Hp 25%nat 24%nat _ _ eq_refl eq_refl eq_refl eq_refl). lia.
Qed.

(** ** Failures (lines 15-220) *)



Example fit_of_model3_raises :
  let out := run_program (fail_at 133) tally script 0%nat in
  out.2 = Some "error" /\
  last out.1.1
    = Some (Ran (Action 133 (Regress "model3" model3)) (Some "error")) /\
  length out.1.1 = 42%nat /\
  existsb is_export (omap ran out.1.1) = true /\
  existsb (writes "results.html") (omap ran out.1.1) = false.
Proof. repeat split; vm_compute; reflexivity. Qed.

Example write_of_results_raises :
  let out := run_program (fail_at 166) tally script 0%nat in
  out.2 = Some "error" /\
  drop 53 out.1.1
    = [ Ran (Action 165 (Export "results.html")) None;
        Ran (Action 166 (Export "results.html")) (Some "error");
        Left (Action 165 (Export "results.html")) None ].
Proof. repeat split; vm_compute; reflexivity. Qed.


(* ================================================================= *)
(** * Further properties of the cleaning block *)

(** The bin of a present age and the interval it lies in. *)
Lemma bin_age_cases (x : Q) :
  ((x < 25)%Q /\ bin_age (Some x) = 1%Z) \/
  ((25 <= x < 35)%Q /\ bin_age (Some x) = 2%Z) \/
  ((35 <= x < 45)%Q /\ bin_age (Some x) = 3%Z) \/
  ((45 <= x < 55)%Q /\ bin_age (Some x) = 4%Z) \/
  ((55 <= x)%Q /\ bin_age (Some x) = 5%Z).
Proof.
  unfold bin_age, loc_assign, lt, ge, Qltb.
  case_Qle 25%Q x; case_Qle 35%Q x; case_Qle 45%Q x; case_Qle 55%Q x;
    simpl; try (exfalso; lra).
  - right; right; right; right. split; [lra|reflexivity].
  - right; right; right; left. split; [lra|reflexivity].
  - right; right; left. split; [lra|reflexivity].
  - right; left. split; [lra|reflexivity].
  - left. split; [lra|reflexivity].
Qed.

(** X1: [age_bin] is 0 exactly for a missing age, and [k] in 1..5
    exactly for an age in the [k]-th interval of lines 34-38
    (below 25, 25 to below 35, 35 to below 45, 45 to below 55, 55 and
    above). *)
Theorem age_bin_intervals (a : cell) :
  (bin_age a = 0%Z <-> a = None) /\
  (bin_age a = 1%Z <-> exists x, a = Some x /\ (x < 25)%Q) /\
  (bin_age a = 2%Z <-> exists x, a = Some x /\ (25 <= x < 35)%Q) /\
  (bin_age a = 3%Z <-> exists x, a = Some x /\ (35 <= x < 45)%Q) /\
  (bin_age a = 4%Z <-> exists x, a = Some x /\ (45 <= x < 55)%Q) /\
  (bin_age a = 5%Z <-> exists x, a = Some x /\ (55 <= x)%Q).
Proof.
  destruct a as [x|].
  - pose proof (bin_age_cases x) as Hc.
    repeat split;
      try (intros Hb; rewrite Hb in Hc;
           destruct Hc as [[? ?]|[[? ?]|[[? ?]|[[? ?]|[? ?]]]]];
           try discriminate; exists x; split; [reflexivity|assumption]);
      try (intros (y & [= <-] & Hy);
           destruct Hc as [[? ?]|[[? ?]|[[? ?]|[[? ?]|[? ?]]]]];
           try assumption; exfalso; lra).
    + intros Hb; rewrite Hb in Hc.
      destruct Hc as [[? ?]|[[? ?]|[[? ?]|[[? ?]|[? ?]]]]]; discriminate.
    + discriminate.
  - repeat split; try reflexivity; try discriminate;
      intros (y & Hy & _); discriminate.
Qed.

(** X2: the bin does not decrease with age. *)
Theorem age_bin_monotone (x y : Q) :
  (x <= y)%Q -> (bin_age (Some x) <= bin_age (Some y))%Z.
Proof.
  intros Hxy.
  destruct (bin_age_cases x) as [[? ->]|[[? ->]|[[? ->]|[[? ->]|[? ->]]]]];
  destruct (bin_age_cases y) as [[? ->]|[[? ->]|[[? ->]|[[? ->]|[? ->]]]]];
    try lia; exfalso; lra.
Qed.

Lemma age_bin_monotone_witness :
  (bin_age (Some 24%Q) <= bin_age (Some 25%Q))%Z.
Proof. apply (age_bin_monotone 24 25). lra. Defined.




(* ================================================================= *)
(** * Further properties of the summary tables *)

Lemma total_Permutation {A : Type} (f : A -> Z) (l l' : list A) :
  l ≡ₚ l' -> total f l = total f l'.
Proof.
  unfold total.
  induction 1 as [|x l l' _ IH|x y l|l l' l'' _ IH1 _ IH2]; cbn.
  - reflexivity.
  - rewrite IH. reflexivity.
  - lia.
  - congruence.
Qed.

Lemma total_ext {A : Type} (f g : A -> Z) (l : list A) :
  Forall (fun x => f x = g x) l -> total f l = total g l.
Proof.
  unfold total.
  induction 1 as [|x l Hx _ IH]; cbn; [reflexivity|]. rewrite Hx, IH.
  reflexivity.
Qed.

Lemma total_fmap {A B : Type} (f : B -> Z) (h : A -> B) (l : list A) :
  total f (h <$> l) = total (fun x => f (h x)) l.
Proof.
  unfold total.
  induction l as [|x l IH]; cbn; [reflexivity|]. rewrite IH. reflexivity.
Qed.

Section Partition.
Context `{Countable K}.

(** Writing a bucket changes the number of grouped rows by the change
    of that bucket. *)
Lemma grouped_rows_insert (m : gmap K (list row)) (k : K) (v : list row) :
  grouped_rows (<[k := v]> m)
  = (grouped_rows m - Z.of_nat (length (default [] (m !! k)))
     + Z.of_nat (length v))%Z.
Proof.
  unfold grouped_rows. destruct (m !! k) as [g|] eqn:Hk; cbn [default].
  - rewrite <- insert_delete_eq.
    rewrite (total_Permutation _ _ _
               (map_to_list_insert (delete k m) k v (lookup_delete_eq m k))).
    rewrite <- (total_Permutation _ _ _ (map_to_list_delete m k g Hk)).
    unfold total, id. cbn [foldr snd]. lia.
  - rewrite (total_Permutation _ _ _ (map_to_list_insert m k v Hk)).
    unfold total. cbn [foldr snd length]. lia.
Qed.

Lemma grouped_rows_bucket_add (m : gmap K (list row)) (k : K) (r : row) :
  grouped_rows (bucket_add m k r) = (grouped_rows m + 1)%Z.
Proof.
  unfold bucket_add. rewrite grouped_rows_insert, length_app. cbn. lia.
Qed.

Variable key : row -> option K.

Lemma grouped_rows_fold (data : list row) (m : gmap K (list row)) :
  grouped_rows (foldl (fun m r => match key r with
                                  | Some k => bucket_add m k r
                                  | None => m
                                  end) m data)
  = (grouped_rows m
     + Z.of_nat (length (filter (fun r => is_Some (key r)) data)))%Z.
Proof.
  revert m. induction data as [|r data IH]; intros m; cbn [foldl].
  - cbn. lia.
  - rewrite IH, filter_cons. destruct (key r) as [k|] eqn:Hk.
    + rewrite decide_True by (eexists; reflexivity).
      rewrite grouped_rows_bucket_add. cbn [length]. lia.
    + rewrite decide_False by (intros [? ?]; discriminate). reflexivity.
Qed.

Lemma grouped_rows_groupby (data : list row) :
  grouped_rows (groupby key data)
  = Z.of_nat (length (filter (fun r => is_Some (key r)) data)).
Proof.
  unfold groupby. rewrite grouped_rows_fold. unfold grouped_rows.
  rewrite map_to_list_empty. cbn. lia.
Qed.

(** X4: [groupby] splits the rows that have a key: a row with key [k]
    is in the bucket of [k] and in no other, a row without key is in
    no bucket, and the buckets together hold as many rows as the frame
    has rows with a key. *)
Theorem groupby_partition (data : list row) :
  (forall r k, r ∈ data -> key r = Some k ->
     exists g, groupby key data !! k = Some g /\ r ∈ g) /\
  (forall k g r, groupby key data !! k = Some g -> r ∈ g ->
     r ∈ data /\ key r = Some k) /\
  grouped_rows (groupby key data)
  = Z.of_nat (length (filter (fun r => is_Some (key r)) data)).
Proof.
  split; [|split].
  - intros r k Hr Hk. rewrite groupby_lookup.
    assert (Hin : r ∈ group_rows key k data).
    { unfold group_rows. apply list_elem_of_filter. split; assumption. }
    destruct (group_rows key k data) as [|r' g] eqn:Hg.
    + apply elem_of_nil in Hin. contradiction.
    + eexists. split; [reflexivity|exact Hin].
  - intros k g r. rewrite groupby_lookup.
    destruct (group_rows key k data) as [|r' g'] eqn:Hg; [discriminate|].
    intros [= <-] Hin. rewrite <- Hg in Hin. unfold group_rows in Hin.
    apply list_elem_of_filter in Hin as [Hk Hin]. split; assumption.
  - apply grouped_rows_groupby.
Qed.
End Partition.



(** The empty groups that [observed=False] adds hold no rows. *)
Lemma grouped_rows_fill (b : gmap (string * string) (list row))
    (l : list (string * string)) :
  grouped_rows (b ∪ list_to_map ((fun k => (k, [])) <$> l)) = grouped_rows b.
Proof.
  induction l as [|k l IH]; cbn [fmap list_fmap list_to_map foldr].
  - rewrite (right_id_L ∅ (∪)). reflexivity.
  - change (foldr _ ∅ ((fun k => (k, [])) <$> l))
      with (list_to_map ((fun k => (k, @nil row)) <$> l)
              : gmap (string * string) (list row)).
    set (fill := list_to_map ((fun k => (k, @nil row)) <$> l)
                 : gmap (string * string) (list row)) in *.
    cbn [uncurry fst snd]. destruct (b !! k) as [g|] eqn:Hb.
    + assert (Heq : b ∪ <[k := []]> fill = b ∪ fill).
      { apply map_eq. intros i. rewrite !lookup_union.
        destruct (decide (i = k)) as [->|Hne].
        - rewrite lookup_insert_eq, Hb. destruct (fill !! k); reflexivity.
        - rewrite lookup_insert_ne by congruence. reflexivity. }
      rewrite Heq. exact IH.
    + rewrite <- insert_union_r by exact Hb.
      rewrite grouped_rows_insert, IH.
      assert (Hd : default [] ((b ∪ fill) !! k) = []).
      { destruct ((b ∪ fill) !! k) as [v|] eqn:Hl; [|reflexivity].
        apply lookup_union_Some_raw in Hl as [Hl|[_ Hl]]; [congruence|].
        subst fill. apply elem_of_list_to_map_2, list_elem_of_fmap in Hl
          as (k' & [= _ ->] & _). reflexivity. }
      rewrite Hd. cbn. lia.
Qed.

Lemma is_Some_key2 (a b : row -> text) (r : row) :
  is_Some (key2 a b r) <-> is_Some (a r) /\ is_Some (b r).
Proof.
  unfold key2. destruct (a r), (b r); split;
    try (intros _; split; eexists; reflexivity);
    try (intros [? ?]; discriminate);
    try (intros [[? ?] [? ?]]; discriminate).
  intros _. eexists; reflexivity.
Qed.

Lemma pair_counts_add_up (observed : bool) (a b : row -> text) (data : list row) :
  total (fun x => s2_cnt x.2)
        (sort_values ((fun g => {| s2_mean := mean totalPay g;
                                   s2_cnt := count a g |})
                        <$> groupby2 observed a b data))
  = Z.of_nat (length (filter (fun r => is_Some (a r) /\ is_Some (b r)) data)).
Proof.
  unfold sort_values.
  rewrite (total_Permutation (fun x : string * string * stats2 => s2_cnt x.2)
             _ _ (merge_sort_Permutation sort_order _)).
  rewrite map_to_list_fmap, total_fmap.
  rewrite (total_ext _ (fun kg => Z.of_nat (length kg.2))).
  - transitivity (grouped_rows (groupby2 observed a b data)); [reflexivity|].
    assert (Hg : grouped_rows (groupby2 observed a b data)
                 = grouped_rows (groupby (key2 a b) data)).
    { unfold groupby2. destruct observed; [reflexivity|apply grouped_rows_fill]. }
    rewrite Hg, grouped_rows_groupby.
    f_equal. f_equal. apply list_filter_iff. intros r. apply is_Some_key2.
  - apply Forall_forall. intros [[x y] g] Hin. cbn.
    apply elem_of_map_to_list, groupby2_lookup in Hin as ->.
    apply count_first_key.
Qed.

(** X6: the counts of [summary_dept] add up to the number of rows that
    have both a department and a gender, and those of [summary_job] to
    the number of rows that have both a job title and a gender,
    whatever [observed] is: a row that lacks one of its two keys is
    counted in no row of the table. *)
Theorem pair_tables_count_rows (observed : bool) (data : list row) :
  total (fun x => s2_cnt x.2) (summary_dept observed data)
  = Z.of_nat (length (filter (fun r => is_Some (dept r) /\ is_Some (gender r)) data)) /\
  total (fun x => s2_cnt x.2) (summary_job observed data)
  = Z.of_nat (length (filter (fun r => is_Some (jobTitle r) /\ is_Some (gender r)) data)).
Proof.
  split; apply pair_counts_add_up.
Qed.




Example dept_mean_times_count_overstates :
  summary_dept true (clean [sample_no_pay; sample_male])
  = [ (("Engineering", "Male"),
       {| s2_mean := arith_mean [(100000 + 5000)%Q]; s2_cnt := 2 |}) ].
Proof. vm_compute. reflexivity. Qed.

Lemma elem_of_categories (c : row -> text) (data : list row) (x : string) :
  x ∈ categories c data <-> exists r, r ∈ data /\ c r = Some x.
Proof.
  unfold categories. rewrite elem_of_remove_dups, list_elem_of_omap.
  reflexivity.
Qed.

Lemma pair_rows_nonempty (a b : row -> text) (x y : string) (data : list row) :
  pair_rows a b x y data <> [] <->
  exists r, r ∈ data /\ a r = Some x /\ b r = Some y.
Proof.
  rewrite <- group_rows_key2, group_rows_nonempty.
  split; intros (r & Hr & Hk); exists r; (split; [exact Hr|]);
    apply key2_Some; exact Hk.
Qed.

Lemma pair_table_groups (a b : row -> text) (data : list row) :
  let table := fun observed =>
    sort_values ((fun g => {| s2_mean := mean totalPay g; s2_cnt := count a g |})
                   <$> groupby2 observed a b data) in
  (forall x y st, ((x, y), st) ∈ table true ->
     pair_rows a b x y data <> [] /\ (1 <= s2_cnt st)%Z) /\
  (forall x y, (exists st, ((x, y), st) ∈ table false) <->
     x ∈ categories a data /\ y ∈ categories b data) /\
  (forall x y st, ((x, y), st) ∈ table false ->
     pair_rows a b x y data = [] ->
     st = {| s2_mean := None; s2_cnt := 0 |}).
Proof.
  cbv zeta. split; [|split].
  - intros x y st Hin.
    assert (Hne : pair_rows a b x y data <> []).
    { apply elem_of_sort_values in Hin. rewrite lookup_fmap in Hin.
      apply groupby2_observed_only.
      destruct (groupby2 true a b data !! (x, y)); [eauto|discriminate]. }
    split; [exact Hne|].
    destruct (pair_table true a b data) as (_ & Hst & _).
    apply Hst in Hin as ->. cbn.
    destruct (pair_rows a b x y data); [contradiction|cbn; lia].
  - intros x y. split.
    + intros [st Hin]. apply elem_of_sort_values in Hin.
      rewrite lookup_fmap in Hin.
      destruct (groupby2 false a b data !! (x, y)) as [g|] eqn:Hg;
        [clear Hin|discriminate].
      unfold groupby2 in Hg.
      apply lookup_union_Some_raw in Hg as [Hg|[_ Hg]].
      * assert (Hne : pair_rows a b x y data <> []).
        { apply groupby2_observed_only. unfold groupby2. eauto. }
        apply pair_rows_nonempty in Hne as (r & Hr & Ha & Hb).
        split; apply elem_of_categories; eauto.
      * apply elem_of_list_to_map_2, list_elem_of_fmap in Hg
          as ([x' y'] & [= <- <- _] & Hin).
        apply list_elem_of_cprod in Hin. exact Hin.
    + intros [Hx Hy].
      destruct (groupby2_all_pairs a b data x y Hx Hy) as [g Hg].
      eexists. apply elem_of_sort_values. rewrite lookup_fmap, Hg.
      reflexivity.
  - intros x y st Hin Hnil.
    destruct (pair_table false a b data) as (_ & Hst & _).
    apply Hst in Hin as ->. rewrite Hnil. reflexivity.
Qed.

(** X8: what [observed] changes.  With [observed=True] a table by two
    keys has a row only for a pair some row of the frame has, so every
    count is at least 1.  With [observed=False] it has a row for every
    department (or job title) of the frame with every gender of the
    frame, and a pair no row has gets a count of 0 and a NaN mean. *)
Theorem observed_flag (data : list row) :
  (forall d g st, ((d, g), st) ∈ summary_dept true data ->
     pair_rows dept gender d g data <> [] /\ (1 <= s2_cnt st)%Z) /\
  (forall d g, (exists st, ((d, g), st) ∈ summary_dept false data) <->
     d ∈ categories dept data /\ g ∈ categories gender data) /\
  (forall d g st, ((d, g), st) ∈ summary_dept false data ->
     pair_rows dept gender d g data = [] ->
     st = {| s2_mean := None; s2_cnt := 0 |}) /\
  (forall j g st, ((j, g), st) ∈ summary_job true data ->
     pair_rows jobTitle gender j g data <> [] /\ (1 <= s2_cnt st)%Z) /\
  (forall j g, (exists st, ((j, g), st) ∈ summary_job false data) <->
     j ∈ categories jobTitle data /\ g ∈ categories gender data) /\
  (forall j g st, ((j, g), st) ∈ summary_job false data ->
     pair_rows jobTitle gender j g data = [] ->
     st = {| s2_mean := None; s2_cnt := 0 |}).
Proof.
  destruct (pair_table_groups dept gender data) as (H1 & H2 & H3).
  destruct (pair_table_groups jobTitle gender data) as (H4 & H5 & H6).
  repeat (split; [assumption|]). assumption.
Qed.

(** ** Order of the rows (lines 104 and 111) *)







Example summary_job_order :
  fst <$> summary_job false
    (clean [ employee (Some "Female") (Some 30%Q) (Some 1%Q) (Some 0%Q);
             set_gender (Some "Male") sample_female ])
  = [ ("Software Engineer", "Female"); ("Software Engineer", "Male") ].
Proof. vm_compute. reflexivity. Qed.

(** ** The median (lines 72, 80 and 88) *)

Lemma Qleb_rel_le (a b : Q) : Qleb_rel a b <-> (a <= b)%Q.
Proof. unfold Qleb_rel. apply Qle_bool_iff. Qed.

Lemma Qleb_rel_trans : Transitive Qleb_rel.
Proof.
  intros a b c Hab Hbc. apply Qleb_rel_le in Hab, Hbc. apply Qleb_rel_le. lra.
Qed.

Lemma Qleb_rel_total : Total Qleb_rel.
Proof.
  intros a b. destruct (Qlt_le_dec a b) as [Hlt|Hle].
  - left. apply Qleb_rel_le. lra.
  - right. apply Qleb_rel_le. exact Hle.
Qed.

(** In a sorted list an earlier value is at most a later one. *)
Lemma sorted_lookup_le (s : list Q) (i j : nat) (x y : Q) :
  StronglySorted Qleb_rel s -> (i <= j)%nat ->
  s !! i = Some x -> s !! j = Some y -> (x <= y)%Q.
Proof.
  intros Hs. revert i j. induction Hs as [|a s Hs IH Ha]; intros i j Hij Hi Hj.
  - discriminate.
  - destruct i as [|i], j as [|j]; cbn in Hi, Hj.
    + injection Hi as <-. injection Hj as <-. lra.
    + injection Hi as <-. rewrite Forall_forall in Ha.
      apply Qleb_rel_le, Ha. apply list_elem_of_lookup. eauto.
    + lia.
    + apply (IH i j); [lia|assumption|assumption].
Qed.

Lemma filter_front_length {A : Type} (P : A -> Prop)
    `{forall x, Decision (P x)} (s : list A) (k : nat) :
  (k <= length s)%nat ->
  (forall i x, (i < k)%nat -> s !! i = Some x -> P x) ->
  (k <= length (filter P s))%nat.
Proof.
  revert k. induction s as [|a s IH]; intros k Hk Hall; cbn in Hk.
  - lia.
  - destruct k as [|k]; [lia|].
    rewrite filter_cons, decide_True by (apply (Hall 0%nat); [lia|reflexivity]).
    cbn. apply le_n_S, IH; [lia|].
    intros i x Hi Hx. apply (Hall (Datatypes.S i)); [lia|exact Hx].
Qed.

Lemma filter_back_length {A : Type} (P : A -> Prop)
    `{forall x, Decision (P x)} (s : list A) (k : nat) :
  (forall i x, (k <= i)%nat -> s !! i = Some x -> P x) ->
  (length s - k <= length (filter P s))%nat.
Proof.
  revert k. induction s as [|a s IH]; intros k Hall; [cbn; lia|].
  rewrite filter_cons. destruct k as [|k].
  - rewrite decide_True by (apply (Hall 0%nat); [lia|reflexivity]).
    cbn. specialize (IH 0%nat). cbn in IH.
    assert (length s - 0 <= length (filter P s))%nat; [|lia].
    apply IH. intros i x _ Hx. apply (Hall (Datatypes.S i)); [lia|exact Hx].
  - assert (Hs : (length s - k <= length (filter P s))%nat).
    { apply IH. intros i x Hi Hx.
      apply (Hall (Datatypes.S i)); [lia|exact Hx]. }
    destruct (decide (P a)); cbn; lia.
Qed.

(** X10: the median of a list is a median.  It is NaN exactly for the
    empty list; otherwise at least half of the values are at most the
    median and at least half are at least the median. *)
Theorem median_splits_in_half (l : list Q) :
  (median_of l = None <-> l = []) /\
  (forall m, median_of l = Some m ->
     (length l <= 2 * length (at_most m l))%nat /\
     (length l <= 2 * length (at_least m l))%nat).
Proof.
  unfold median_of, at_most, at_least.
  pose proof (merge_sort_Permutation Qleb_rel l) as Hperm.
  pose proof (@StronglySorted_merge_sort _ Qleb_rel _ Qleb_rel_trans
                Qleb_rel_total l) as Hsorted.
  set (s := merge_sort Qleb_rel l) in *.
  assert (Hlen : length s = length l) by (rewrite Hperm; reflexivity).
  cbv zeta. split.
  - destruct (Nat.eqb_spec (length s) 0) as [H0|Hpos].
    + split; [intros _|reflexivity]. destruct l; [reflexivity|].
      rewrite H0 in Hlen. discriminate Hlen.
    + assert (Hne : l <> []) by (intros ->; apply Hpos; exact Hlen).
      split; [|intros ->; contradiction]. intros Hnone. exfalso.
      destruct (Nat.odd (length s)).
      * apply lookup_ge_None in Hnone.
        pose proof (Nat.div_lt (length s) 2). lia.
      * destruct (lookup_lt_is_Some_2 s (length s / 2 - 1)) as [x Hx];
          [pose proof (Nat.div_lt (length s) 2); lia|].
        destruct (lookup_lt_is_Some_2 s (length s / 2)) as [y Hy];
          [pose proof (Nat.div_lt (length s) 2); lia|].
        rewrite Hx, Hy in Hnone. discriminate.
  - intros m Hm.
    rewrite <- (Permutation_length (filter_Permutation (fun x => Qleb_rel x m) _ _ Hperm)).
    rewrite <- (Permutation_length (filter_Permutation (fun x => Qleb_rel m x) _ _ Hperm)).
    rewrite <- Hlen.
    destruct (Nat.eqb_spec (length s) 0) as [H0|Hpos]; [discriminate|].
    destruct (Nat.odd (length s)) eqn:Hodd.
    + apply Nat.odd_spec in Hodd as [h Hh].
      assert (Hhalf : (length s / 2 = h)%nat).
      { rewrite Hh. symmetry. apply (Nat.div_unique _ 2 h 1); lia. }
      rewrite Hhalf in Hm. split.
      * assert (Datatypes.S h <= length (filter (fun x => Qleb_rel x m) s))%nat;
          [|lia].
        apply filter_front_length; [lia|]. intros i x Hi Hx.
        apply Qleb_rel_le. apply (sorted_lookup_le s i h x m Hsorted);
          [lia|exact Hx|exact Hm].
      * assert (length s - h <= length (filter (fun x => Qleb_rel m x) s))%nat;
          [|lia].
        apply filter_back_length. intros i x Hi Hx.
        apply Qleb_rel_le. apply (sorted_lookup_le s h i m x Hsorted);
          [lia|exact Hm|exact Hx].
    + assert (Heven : Nat.even (length s) = true).
      { rewrite <- Nat.negb_odd, Hodd. reflexivity. }
      apply Nat.even_spec in Heven as [h Hh].
      assert (Hhalf : (length s / 2 = h)%nat).
      { rewrite Hh. symmetry. apply (Nat.div_unique _ 2 h 0); lia. }
      rewrite Hhalf in Hm.
      destruct (s !! (h - 1)%nat) as [x|] eqn:Hx; [|discriminate].
      destruct (s !! h) as [y|] eqn:Hy; [|discriminate].
      injection Hm as <-.
      assert (Hxy : (x <= y)%Q).
      { apply (sorted_lookup_le s (h - 1) h x y Hsorted); [lia|exact Hx|exact Hy]. }
      split.
      * assert (h <= length (filter (fun z => Qleb_rel z ((x + y) / 2)) s))%nat;
          [|lia].
        apply filter_front_length; [lia|]. intros i z Hi Hz.
        apply Qleb_rel_le.
        assert (z <= x)%Q.
        { apply (sorted_lookup_le s i (h - 1) z x Hsorted);
            [lia|exact Hz|exact Hx]. }
        apply Qle_shift_div_l; lra.
      * assert (length s - h
                <= length (filter (fun z => Qleb_rel ((x + y) / 2) z) s))%nat;
          [|lia].
        apply filter_back_length. intros i z Hi Hz.
        apply Qleb_rel_le.
        assert (y <= z)%Q.
        { apply (sorted_lookup_le s h i y z Hsorted);
            [lia|exact Hy|exact Hz]. }
        apply Qle_shift_div_r; lra.
Qed.

(* ================================================================= *)
(** * Further properties of the script *)

Section Traces.
Context {S E : Type}.
Variable run : action -> S -> S * option E.
Variable leave : action -> S -> S * option E.

Local Abbreviation step1 := (exec run leave).
Local Abbreviation steps1 := (exec_seq (exec run leave)).

Lemma exec_seq_runs_prefix (p : list stmt) :
  Forall (fun s => forall σ, runs_prefix (actions s) (step1 s σ)) p ->
  forall σ, runs_prefix (actions_of p) (steps1 p σ).
Proof.
  induction 1 as [|s p Hs _ IH]; intros σ.
  - split; [reflexivity|intros _; reflexivity].
  - cbn [exec_seq]. specialize (Hs σ).
    destruct (step1 s σ) as [[t σ1] r]. destruct Hs as [Hpre Hall].
    unfold actions_of. cbn [map concat]. cbn in Hpre, Hall.
    destruct r as [e|].
    + split; [|discriminate]. cbn. apply prefix_app_r, Hpre.
    + specialize (IH σ1). destruct (steps1 p σ1) as [[t' σ2] r'].
      destruct IH as [Hpre' Hall']. unfold runs_prefix. cbn in *.
      rewrite omap_app, (Hall eq_refl). split.
      * apply prefix_app, Hpre'.
      * intros Hr. rewrite (Hall' Hr). reflexivity.
Qed.

(** Without handler, what ran is a first part of the statement. *)
Lemma exec_runs_prefix (s : stmt) :
  handles s = false -> forall σ, runs_prefix (actions s) (step1 s σ).
Proof.
  induction s as [a|enter body IH|body handler _ _] using stmt_ind;
    intros Hh σ; [| |discriminate].
  - cbn. destruct (run a σ) as [σ1 [e|]]; split; cbn;
      try reflexivity; try discriminate; try (intros _; reflexivity).
    apply prefix_nil.
  - cbn [exec]. destruct (run enter σ) as [σ1 [e|]].
    + split; [apply prefix_nil|discriminate].
    + assert (Hbody : Forall (fun s => forall σ, runs_prefix (actions s) (step1 s σ))
                             body).
      { apply handles_body in Hh. rewrite Forall_forall in IH, Hh |- *.
        intros s Hs. apply IH; [exact Hs|apply Hh, Hs]. }
      pose proof (exec_seq_runs_prefix body Hbody σ1) as [Hpre Hall].
      destruct (steps1 body σ1) as [[t σ2] rb].
      destruct (leave enter σ2) as [σ3 rl]. unfold runs_prefix. cbn in *.
      rewrite omap_app. cbn. rewrite app_nil_r.
      fold (actions_of body). split.
      * apply (prefix_app [enter]), Hpre.
      * destruct rl; [discriminate|]. intros Hr. rewrite (Hall Hr).
        reflexivity.
Qed.

Lemma program_runs_prefix (p : list stmt) (σ : S) :
  existsb handles p = false ->
  runs_prefix (actions_of p) (run_program run leave p σ).
Proof.
  intros Hh. apply exec_seq_runs_prefix.
  eapply Forall_impl; [apply handles_body, Hh|].
  intros s Hs. apply exec_runs_prefix, Hs.
Qed.

(** An entered [with] block is left, whatever its body did. *)
Lemma exec_seq_exit (p : list stmt) (a : action) :
  Forall (fun s => a ∉ do_actions s ->
                   forall σ, Ran a None ∈ (step1 s σ).1.1 ->
                             exists r, Left a r ∈ (step1 s σ).1.1) p ->
  a ∉ concat (map do_actions p) ->
  forall σ, Ran a None ∈ (steps1 p σ).1.1 ->
            exists r, Left a r ∈ (steps1 p σ).1.1.
Proof.
  induction 1 as [|s p Hs _ IH]; intros Hdo σ; cbn [exec_seq].
  - cbn. intros Hin. apply elem_of_nil in Hin. contradiction.
  - cbn [map concat] in Hdo. rewrite elem_of_app in Hdo.
    specialize (Hs (fun Hin => Hdo (or_introl Hin)) σ).
    specialize (IH (fun Hin => Hdo (or_intror Hin))).
    destruct (step1 s σ) as [[t σ1] [e|]]; cbn in *; [exact Hs|].
    specialize (IH σ1). destruct (steps1 p σ1) as [[t' σ2] r']. cbn in *.
    rewrite elem_of_app. intros [Hin|Hin].
    + destruct (Hs Hin) as [r Hr]. exists r. apply elem_of_app. left. exact Hr.
    + destruct (IH Hin) as [r Hr]. exists r. apply elem_of_app. right. exact Hr.
Qed.

Lemma exec_exit (s : stmt) (a : action) :
  a ∉ do_actions s ->
  forall σ, Ran a None ∈ (step1 s σ).1.1 -> exists r, Left a r ∈ (step1 s σ).1.1.
Proof.
  induction s as [a'|enter body IH|body handler IHb IHh] using stmt_ind;
    intros Hdo σ.
  - cbn in *. destruct (run a' σ) as [σ1 r]. cbn.
    intros Hin. apply list_elem_of_singleton in Hin. injection Hin as -> _.
    exfalso. apply Hdo. left.
  - cbn [exec do_actions] in *. destruct (run enter σ) as [σ1 [e|]]; cbn.
    + intros Hin. apply list_elem_of_singleton in Hin. discriminate.
    + pose proof (exec_seq_exit body a IH Hdo σ1) as Hbody.
      destruct (steps1 body σ1) as [[t σ2] rb].
      destruct (leave enter σ2) as [σ3 rl]. cbn in *.
      intros Hin. apply elem_of_cons in Hin as [Heq|Hin].
      * injection Heq as ->. exists rl. right. apply elem_of_app. right. left.
      * apply elem_of_app in Hin as [Hin|Hin].
        -- destruct (Hbody Hin) as [r Hr]. exists r. right.
           apply elem_of_app. left. exact Hr.
        -- apply list_elem_of_singleton in Hin. discriminate.
  - cbn [exec do_actions] in *. rewrite elem_of_app in Hdo.
    pose proof (exec_seq_exit body a IHb (fun Hin => Hdo (or_introl Hin)) σ)
      as Hbody.
    destruct (steps1 body σ) as [[t σ1] [e|]]; cbn in *; [|exact Hbody].
    pose proof (exec_seq_exit handler a IHh (fun Hin => Hdo (or_intror Hin)) σ1)
      as Hhandler.
    destruct (steps1 handler σ1) as [[t' σ2] r']. cbn in *.
    rewrite elem_of_app. intros [Hin|Hin].
    + destruct (Hbody Hin) as [r Hr]. exists r. apply elem_of_app. left. exact Hr.
    + destruct (Hhandler Hin) as [r Hr]. exists r. apply elem_of_app. right.
      exact Hr.
Qed.

Lemma program_exits_balanced (p : list stmt) (σ : S) :
  Forall (fun a => a ∉ concat (map do_actions p)) (concat (map with_enters p)) ->
  exits_balanced p (run_program run leave p σ).
Proof.
  unfold exits_balanced. intros Hall. eapply Forall_impl; [exact Hall|].
  intros a Hdo. apply exec_seq_exit; [|exact Hdo].
  apply Forall_forall. intros s _. apply exec_exit.
Qed.
End Traces.

Lemma omap_prefix {A B : Type} (f : A -> option B) (l1 l2 : list A) :
  l1 `prefix_of` l2 -> omap f l1 `prefix_of` omap f l2.
Proof.
  intros [k ->]. rewrite omap_app. apply prefix_app_r. reflexivity.
Qed.

(** X11: whatever the libraries do, the operations that the script
    completes are a first part of its operations in source order, and
    all of them when nothing is raised.  So the report files come into
    being in one order (summary.html, results.html, dept_clean.csv,
    dept.html, job_clean.csv, job.html; a file written inside a [with]
    block counts twice, opened and written), and a run that fails
    leaves the reports written before the failure and none of the
    later ones. *)
Theorem reports_written_in_order {S E : Type}
    (run leave : action -> S -> S * option E) (σ : S) :
  let out := run_program run leave script σ in
  omap completed out.1.1 `prefix_of` actions_of script /\
  (out.2 = None -> omap completed out.1.1 = actions_of script) /\
  exported (omap completed out.1.1) `prefix_of`
    [ "summary.html"; "results.html"; "results.html"; "dept_clean.csv";
      "dept.html"; "dept.html"; "job_clean.csv"; "job.html"; "job.html" ].
Proof.
  cbv zeta.
  destruct (program_runs_prefix run leave script σ eq_refl) as [Hpre Hall].
  split; [exact Hpre|]. split; [exact Hall|].
  apply (omap_prefix (fun a => match does a with
                               | Export f => Some f
                               | _ => None
                               end)) in Hpre.
  exact Hpre.
Qed.

Example reports_after_failed_fit :
  let out := run_program (fail_at 178) tally script 0%nat in
  exported (omap completed out.1.1)
  = ["summary.html"; "results.html"; "results.html"].
Proof. vm_compute. reflexivity. Qed.

(** X12: each of the three report files that the script opens in a
    [with] block (results.html, dept.html, job.html) is closed in every
    run in which it was opened, also when the write raises. *)
Theorem report_files_closed {S E : Type}
    (run leave : action -> S -> S * option E) (σ : S) :
  let out := run_program run leave script σ in
  concat (map with_enters script)
  = [ Action 165 (Export "results.html"); Action 192 (Export "dept.html");
      Action 219 (Export "job.html") ] /\
  Forall (fun a => Ran a None ∈ out.1.1 -> exists r, Left a r ∈ out.1.1)
    [ Action 165 (Export "results.html"); Action 192 (Export "dept.html");
      Action 219 (Export "job.html") ].
Proof.
  cbv zeta. split; [reflexivity|].
  apply (program_exits_balanced run leave script σ).
  repeat constructor; by_evaluation.
Qed.

(** ** Formulas and columns *)

(** X13: every name in the five formulas is a column of the cleaned
    frame, so no formula asks for a column that is not there; and every
    formula names [log_base] and [male], which are no columns of the
    CSV file: no regression can be fitted before lines 44 and 49
    ran. *)
Theorem formulas_name_columns :
  Forall (fun c =>
            Forall (fun n => forall r, is_Some (column n r))
                   (formula_columns (formula_of c)) /\
            ("log_base" ∈ formula_columns (formula_of c)) /\
            ("male" ∈ formula_columns (formula_of c))) regressions /\
  ("log_base" ∉ raw_columns) /\ ("male" ∉ raw_columns) /\
  (forall n r, is_Some (column n r) <->
               n ∈ raw_columns ++ ["age_bin"; "totalPay"; "log_base";
                                   "log_total"; "log_bonus"; "male"]).
Proof.
  split; [|split; [by_evaluation|split; [by_evaluation|]]].
  - apply Forall_forall. intros c Hc. rewrite regressions_in_order in Hc.
    repeat (apply elem_of_cons in Hc as [-> | Hc]);
      [.. | apply elem_of_nil in Hc; contradiction].
    all: split; [|split; by_evaluation].
    all: match goal with |- Forall _ (formula_columns ?f) =>
           let l := eval vm_compute in (formula_columns f) in
           change (formula_columns f) with l end.
    all: repeat constructor; intros r; vm_compute; eexists; reflexivity.
  - intros n r. unfold column, columns, raw_columns. cbn [app].
    rewrite !elem_of_cons, elem_of_nil. cbn [List.find fst snd].
    repeat match goal with
    | |- context [String.eqb ?a n] =>
        destruct (String.eqb_spec a n) as [<-|?];
        [split; [intros _; tauto|intros _; eexists; reflexivity]|]
    end.
    cbn. split; [intros [? ?]; discriminate|].
    intros H. repeat destruct H as [H|H]; try contradiction; congruence.
Qed.
(** ** The results table (lines 143-162) *)

Lemma append_assoc (a b c : string) : (a +:+ b) +:+ c = a +:+ (b +:+ c).
Proof.
  induction a as [|x a IH]; [reflexivity|].
  change (String x ((a +:+ b) +:+ c) = String x (a +:+ (b +:+ c))).
  f_equal. exact IH.
Qed.

Lemma length_append (a b : string) :
  String.length (a +:+ b) = (String.length a + String.length b)%nat.
Proof.
  induction a as [|x a IH]; [reflexivity|].
  change (Datatypes.S (String.length (a +:+ b))
          = Datatypes.S (String.length a + String.length b)).
  f_equal. exact IH.
Qed.

Lemma prefix_spec (old s : string) :
  String.prefix old s = true <-> exists post, s = old +:+ post.
Proof.
  revert s. induction old as [|a old IH]; intros s.
  - destruct s; cbn; (split; [intros _; eexists; reflexivity|reflexivity]).
  - destruct s as [|b s]; cbn.
    + split; [discriminate|]. intros [post Hp]. discriminate.
    + destruct (ascii_dec a b) as [->|Hne].
      * rewrite IH. split; intros [post Hp]; exists post.
        -- rewrite Hp. reflexivity.
        -- change (String b s = String b (old +:+ post)) in Hp.
           injection Hp as ->. reflexivity.
      * split; [discriminate|]. intros [post Hp].
        change (String b s = String a (old +:+ post)) in Hp. congruence.
Qed.

Section Replace.
Variables old new : string.
Hypothesis old_not_empty : old <> "".

Lemma replace_from_cons (c : ascii) (s : string) :
  replace_from old new 0 (String c s)
  = if String.prefix old (String c s)
    then new +:+ replace_from old new (String.length old - 1) s
    else String c (replace_from old new 0 s).
Proof. reflexivity. Qed.

Lemma replace_from_skip (w post : string) :
  replace_from old new (String.length w) (w +:+ post)
  = replace_from old new 0 post.
Proof.
  induction w as [|c w IH]; [destruct post; reflexivity|exact IH].
Qed.

(** Nothing to replace: the string stays as it is. *)
Lemma replace_from_absent (s : string) :
  ~ occurs old s -> replace_from old new 0 s = s.
Proof.
  induction s as [|c s IH]; intros Hno; [reflexivity|].
  rewrite replace_from_cons.
  destruct (String.prefix old (String c s)) eqn:Hp.
  - exfalso. apply Hno. apply prefix_spec in Hp as [post Hp].
    exists "", post. exact Hp.
  - f_equal. apply IH. intros (pre & post & Hs). apply Hno.
    exists (String c pre), post. rewrite Hs. reflexivity.
Qed.

Lemma replace_from_here (post : string) :
  replace_from old new 0 (old +:+ post) = new +:+ replace_from old new 0 post.
Proof.
  assert (Hold : exists a old', old = String a old').
  { destruct old as [|a old']; [contradiction|eauto]. }
  destruct Hold as (a & old' & Hold).
  replace (old +:+ post) with (String a (old' +:+ post))
    by (rewrite Hold; reflexivity).
  rewrite replace_from_cons.
  assert (Hp : String.prefix old (String a (old' +:+ post)) = true).
  { apply prefix_spec. exists post. rewrite Hold. reflexivity. }
  rewrite Hp. f_equal.
  replace (String.length old - 1)%nat with (String.length old')
    by (rewrite Hold; cbn [String.length]; lia).
  apply replace_from_skip.
Qed.

(** The first occurrence is replaced, and the replacing goes on
    behind it. *)
Lemma replace_from_first (pre post : string) :
  first_after old pre post ->
  replace_from old new 0 (pre +:+ old +:+ post)
  = pre +:+ new +:+ replace_from old new 0 post.
Proof.
  induction pre as [|c pre IH]; intros Hfirst.
  - apply replace_from_here.
  - change (String c pre +:+ old +:+ post)
      with (String c (pre +:+ old +:+ post)).
    rewrite replace_from_cons.
    destruct (String.prefix old (String c (pre +:+ old +:+ post))) eqn:Hp.
    + exfalso. apply prefix_spec in Hp as [post' Hp].
      specialize (Hfirst "" post' Hp). cbn in Hfirst. lia.
    + change (String c pre +:+ new +:+ replace_from old new 0 post)
        with (String c (pre +:+ new +:+ replace_from old new 0 post)).
      f_equal. apply IH. intros pre' post' Heq.
      specialize (Hfirst (String c pre') post').
      change (String c (pre +:+ old +:+ post)
              = String c (pre' +:+ old +:+ post') ->
              (Datatypes.S (String.length pre)
               <= Datatypes.S (String.length pre'))%nat) in Hfirst.
      rewrite Heq in Hfirst. specialize (Hfirst eq_refl). lia.
Qed.
End Replace.

(** X14: the control rows go into the table of results.html right
    before its closing tag: in the text up to the first [</table>]
    nothing changes, the rows and the tag follow, and what comes after
    is treated in the same way, so that every table of the text gets
    the rows.  A text without [</table>] stays as it is: the rows are
    left out and nothing is raised. *)
Theorem control_rows_inserted :
  (forall h, ~ occurs "</table>" h -> html_content h = h) /\
  (forall pre post, first_after "</table>" pre post ->
     html_content (pre +:+ "</table>" +:+ post)
     = pre +:+ control_info +:+ "</table>" +:+ html_content post).
Proof.
  unfold html_content, replace. cbn [String.eqb Ascii.eqb Bool.eqb].
  split.
  - intros h Hno. apply replace_from_absent. exact Hno.
  - intros pre post Hfirst.
    rewrite (replace_from_first "</table>" _ ltac:(discriminate) pre post Hfirst).
    rewrite append_assoc. reflexivity.
Qed.

Example results_table_with_controls :
  html_content "<table><tr><td>male</td><td>0.0095</td></tr></table>"
  = "<table><tr><td>male</td><td>0.0095</td></tr>" +:+ control_info
    +:+ "</table>".
Proof. vm_compute. reflexivity. Qed.

(** X15: the control rows tell what the formulas do.  The rows
    Education, Department and Job Title have, under Model 1 to
    Model 3, "Yes" exactly where the formula of that model names the
    column [edu], [dept] and [jobTitle]. *)
Theorem control_rows_match_formulas :
  control_rows
  = [ ["Controls:"; ""; ""; ""];
      control_row "Education" "edu";
      control_row "Department" "dept";
      control_row "Job Title" "jobTitle" ].
Proof. vm_compute. reflexivity. Qed.

(** ** The rows a regression is fitted on (lines 125-205) *)

Lemma filter_sublist_impl {A : Type} (P Q : A -> Prop)
    `{forall x, Decision (P x)} `{forall x, Decision (Q x)} (l : list A) :
  (forall x, P x -> Q x) -> filter P l `sublist_of` filter Q l.
Proof.
  intros HPQ. induction l as [|x l IH]; [constructor|].
  rewrite !filter_cons. destruct (decide (P x)) as [HP|HP].
  - rewrite decide_True by (apply HPQ, HP). constructor. exact IH.
  - destruct (decide (Q x)); [constructor|]; exact IH.
Qed.

(** Writes the test of [sample] out, as a disjunction over the
    columns of the formula. *)
Ltac read_sample :=
  unfold regression_input;
  repeat match goal with
  | |- context [formula_columns ?f] =>
      let l := eval vm_compute in (formula_columns f) in
      change (formula_columns f) with l
  end;
  cbn.

Lemma sample_model2_in_model1 (r : row) :
  existsb is_nan (regression_input model2 r) = false ->
  existsb is_nan (regression_input model1 r) = false.
Proof.
  read_sample. destruct (log_base r), (perfEval r), (edu r); cbn; congruence.
Qed.

Lemma sample_model3_in_model2 (r : row) :
  existsb is_nan (regression_input model3 r) = false ->
  existsb is_nan (regression_input model2 r) = false.
Proof.
  read_sample.
  destruct (log_base r), (perfEval r), (edu r), (dept r), (seniority r),
    (jobTitle r); cbn; congruence.
Qed.

Lemma sample_interaction_models (r : row) :
  existsb is_nan (regression_input dept_results r)
  = existsb is_nan (regression_input model3 r) /\
  existsb is_nan (regression_input job_results r)
  = existsb is_nan (regression_input model3 r).
Proof.
  split; read_sample;
    destruct (log_base r), (perfEval r), (edu r), (dept r), (seniority r),
      (jobTitle r); reflexivity.
Qed.

(** X16: the rows the regressions are fitted on.  A row is left out of
    a fit when a column of its formula is missing in it, so the models
    with more controls are fitted on fewer rows: the rows of [model3]
    are among those of [model2], which are among those of [model1],
    in frame order; the two interaction models are fitted on the rows
    of [model3].  A missing age or gender takes no row out of a fit
    ([age_bin] and [male] are never missing), and neither does a base
    pay of 0, whose [log_base] is [-inf]. *)
Theorem samples_nested (data : list row) :
  sample model3 data `sublist_of` sample model2 data /\
  sample model2 data `sublist_of` sample model1 data /\
  sample dept_results data = sample model3 data /\
  sample job_results data = sample model3 data /\
  (forall r, is_nan (column "age_bin" r) = false /\
             is_nan (column "male" r) = false) /\
  (forall r, log_base r = LNegInf ->
             existsb is_nan (regression_input model1 r) = false).
Proof.
  unfold sample. split; [|split; [|split; [|split; [|split]]]].
  - apply filter_sublist_impl, sample_model3_in_model2.
  - apply filter_sublist_impl, sample_model2_in_model1.
  - apply list_filter_iff. intros r.
    destruct (sample_interaction_models r) as [-> _]. reflexivity.
  - apply list_filter_iff. intros r.
    destruct (sample_interaction_models r) as [_ ->]. reflexivity.
  - intros r. split; reflexivity.
  - intros r Hr. read_sample. rewrite Hr. reflexivity.
Qed.

Example samples_of_three_rows :
  let data := clean [sample_male; sample_zero_pay; sample_no_pay;
                     employee None None (Some 50000%Q) (Some 0%Q)] in
  (length (sample model1 data), length (sample model3 data)) = (3%nat, 3%nat) /\
  log_base <$> sample model3 data = [Ln 100000; LNegInf; Ln 50000].
Proof. split; vm_compute; reflexivity. Qed.
